(** * Playback configuration, identifier extraction and the double-click
      detector of the Mux player wrapper

    Shallow embedding of [src/components/MuxPlayer.tsx] (the source listed
    after the optimisation guide) and of
    [src/components/VideoPlaybackModal.tsx].

    JavaScript strings are modelled as [string]; every pattern the code
    searches for is ASCII, so comparing character by character is what the
    engine does.  React state, refs, timers and the calls made on the
    browser are fields of one record, and handlers run in a small
    state-and-exception monad. *)

From Stdlib Require Import Bool Arith ZArith Lia List Ascii String.
From Stdlib Require Import DecimalString DecimalNat.
Import ListNotations.

Local Open Scope string_scope.
Local Open Scope list_scope.
Local Open Scope nat_scope.

(* ================================================================== *)
(** * Strings: what [includes], [match] and [test] compute *)
(* ================================================================== *)

Module Str.

(** [strip p s] removes the prefix [p] from [s], if it is one. *)
Fixpoint strip (p s : string) : option string :=
  match p with
  | EmptyString => Some s
  | String a p' =>
      match s with
      | EmptyString => None
      | String b s' => if Ascii.eqb a b then strip p' s' else None
      end
  end.

(** [String.prototype.includes]. *)
Fixpoint includes (s p : string) : bool :=
  match strip p s with
  | Some _ => true
  | None =>
      match s with
      | EmptyString => false
      | String _ s' => includes s' p
      end
  end.

(** The character class [[a-zA-Z0-9]]. *)
Definition is_alnum (c : ascii) : bool :=
  let n := nat_of_ascii c in
  ((97 <=? n) && (n <=? 122)) || ((65 <=? n) && (n <=? 90))
  || ((48 <=? n) && (n <=? 57)).

(** Greedy [[a-zA-Z0-9]*]: the longest alphanumeric prefix. *)
Fixpoint take_alnum (s : string) : string :=
  match s with
  | EmptyString => EmptyString
  | String c s' => if is_alnum c then String c (take_alnum s') else EmptyString
  end.

Fixpoint all_alnum (s : string) : bool :=
  match s with
  | EmptyString => true
  | String c s' => is_alnum c && all_alnum s'
  end.

Definition starts_alnum (s : string) : bool :=
  match s with
  | EmptyString => false
  | String c _ => is_alnum c
  end.

Definition is_empty (s : string) : bool :=
  match s with EmptyString => true | _ => false end.

(** ASCII case folding, as the [i] flag of a regular expression without the
    [u] flag does for ASCII pattern characters. *)
Definition lower (c : ascii) : ascii :=
  let n := nat_of_ascii c in
  if (65 <=? n) && (n <=? 90) then ascii_of_nat (n + 32) else c.

Fixpoint strip_ci (p s : string) : option string :=
  match p with
  | EmptyString => Some s
  | String a p' =>
      match s with
      | EmptyString => None
      | String b s' =>
          if Ascii.eqb (lower a) (lower b) then strip_ci p' s' else None
      end
  end.

(** Does the literal [p] occur in [s], ignoring ASCII case? *)
Fixpoint includes_ci (s p : string) : bool :=
  match strip_ci p s with
  | Some _ => true
  | None =>
      match s with
      | EmptyString => false
      | String _ s' => includes_ci s' p
      end
  end.

(** The text after the last ['/'] of [s] (all of [s] when it has none). *)
Fixpoint after_last_slash (s : string) : string :=
  match s with
  | EmptyString => EmptyString
  | String c s' =>
      if includes s' "/" then after_last_slash s'
      else if Ascii.eqb c "/"%char then s' else String c s'
  end.

(** A string with its ASCII capitals turned into small letters. *)
Fixpoint lower_string (s : string) : string :=
  match s with
  | EmptyString => EmptyString
  | String c s' => String (lower c) (lower_string s')
  end.

End Str.

(* ================================================================== *)
(** * MuxPlayer.tsx: the playback configuration selector *)
(* ================================================================== *)

(** [type NetworkConnection = '4g' | '3g' | '2g' | 'slow-2g' | 'unknown'].
    The spec calls these tiers excellent, good, poor, very-poor, unknown. *)
Inductive NetworkConnection : Type :=
  | Net4g | Net3g | Net2g | NetSlow2g | NetUnknown.

(** The string a value of the union type is at run time.  The component
    state holds the string: [detectNetwork] stores whatever the browser
    reports through an unchecked [as NetworkConnection]. *)
Definition net_string (t : NetworkConnection) : string :=
  match t with
  | Net4g => "4g"
  | Net3g => "3g"
  | Net2g => "2g"
  | NetSlow2g => "slow-2g"
  | NetUnknown => "unknown"
  end.

Definition all_tiers : list NetworkConnection :=
  [Net4g; Net3g; Net2g; NetSlow2g; NetUnknown].

Definition is_tier (v : string) : bool :=
  existsb (fun t => String.eqb v (net_string t)) all_tiers.

(** [getOptimalMaxResolution], a [switch] on [networkConnection]. *)
Definition getOptimalMaxResolution (networkConnection : string)
    (isMobile : bool) : string :=
  if String.eqb networkConnection "slow-2g" then "480p"
  else if String.eqb networkConnection "2g" then "480p"
  else if String.eqb networkConnection "3g" then "720p"
  else if String.eqb networkConnection "4g" then "1080p"
  else if isMobile then "720p" else "1080p".

(** [getPreloadStrategy]. *)
Definition getPreloadStrategy (networkConnection : string)
    (isMobile : bool) : string :=
  if isMobile && (String.eqb networkConnection "slow-2g"
                  || String.eqb networkConnection "2g")
  then "metadata"
  else if isMobile then "metadata"
  else "auto".

(** The user-agent test shared by both components:
    [/Android|webOS|iPhone|iPad|iPod|BlackBerry|IEMobile|Opera Mini/i.test]. *)
Definition mobile_patterns : list string :=
  ["Android"; "webOS"; "iPhone"; "iPad"; "iPod"; "BlackBerry"; "IEMobile";
   "Opera Mini"].

Definition mobile_ua_test (userAgent : string) : bool :=
  existsb (Str.includes_ci userAgent) mobile_patterns.

(** The body of [checkMobile]: the value passed to [setIsMobile]. *)
Definition isMobileDevice (userAgent : string) (innerWidth : Z) : bool :=
  mobile_ua_test userAgent || (innerWidth <=? 768)%Z.

(** The number of lines of a resolution name, to compare resolutions. *)
Definition lines (resolution : string) : nat :=
  if String.eqb resolution "480p" then 480
  else if String.eqb resolution "720p" then 720
  else if String.eqb resolution "1080p" then 1080
  else 0.

(** The network values the [switch] of [getOptimalMaxResolution] names. *)
Definition recognised : list string := ["slow-2g"; "2g"; "3g"; "4g"].

(* ================================================================== *)
(** * VideoPlaybackModal.tsx *)
(* ================================================================== *)

Module Modal.


(** One attempt of [/stream\.mux\.com\/([a-zA-Z0-9]+)/] at the start of
    [s]: the literal, then a greedy non-empty alphanumeric run, which is
    the captured group. *)
Definition mux_match_here (s : string) : option string :=
  match Str.strip "stream.mux.com/" s with
  | Some rest =>
      let g := Str.take_alnum rest in
      if Str.is_empty g then None else Some g
  | None => None
  end.

(** [content_url.match(/stream\.mux\.com\/([a-zA-Z0-9]+)/)], reduced to
    [match[1]]: the engine tries every start position from the left and
    keeps the first that matches. *)
Fixpoint mux_match (s : string) : option string :=
  match mux_match_here s with
  | Some g => Some g
  | None =>
      match s with
      | EmptyString => None
      | String _ s' => mux_match s'
      end
  end.

(** [getPlaybackId], with [content.content_url] as its argument. *)
Definition getPlaybackId (content_url : string) : string :=
  if Str.is_empty content_url then ""
  else if Str.includes content_url "stream.mux.com" then
    match mux_match content_url with
    | Some g => g
    | None => ""
    end
  else if negb (Str.includes content_url "://") then content_url
  else "".

(** What the player section of the modal renders:
    [playbackId ? <MuxPlayer playbackId=.../> : <p>Unable to extract Mux
    playback ID from URL</p>]. *)
Inductive PlayerSection : Type :=
  | MuxPlayerElement (playbackId : string)
  | UnableToExtract.

Definition player_section (content_url : string) : PlayerSection :=
  let playbackId := getPlaybackId content_url in
  if Str.is_empty playbackId then UnableToExtract
  else MuxPlayerElement playbackId.

(** [const isMobile = /Android|...|Opera Mini/i.test(navigator.userAgent)]. *)
Definition isMobile (userAgent : string) : bool := mobile_ua_test userAgent.



(** The extraction rule as the specification words it, for comparison with
    [getPlaybackId]: a string matching the streaming-host pattern yields
    its trailing (last) path segment, as far as it is alphanumeric; a
    string without [://] is the identifier itself; anything else is
    unresolvable. *)
Definition spec_getPlaybackId (content_url : string) : string :=
  match mux_match content_url with
  | Some _ => Str.take_alnum (Str.after_last_slash content_url)
  | None =>
      if negb (Str.includes content_url "://") then content_url else ""
  end.

(** [url] reads [pre], then [stream.mux.com/], then the non-empty
    alphanumeric run [id], which [post] does not continue. *)
Definition occurs_at (pre id post url : string) : Prop :=
  url = (pre ++ "stream.mux.com/" ++ id ++ post)%string
  /\ Str.is_empty id = false
  /\ Str.all_alnum id = true
  /\ Str.starts_alnum post = false.

(** [id] is the identifier of the leftmost such occurrence in [url]. *)
Definition first_id (url id : string) : Prop :=
  exists pre post,
    occurs_at pre id post url
    /\ forall pre' id' post',
         occurs_at pre' id' post' url ->
         String.length pre <= String.length pre'.

(** [p] occurs in [s]. *)
Definition contains (s p : string) : Prop :=
  exists pre post, s = (pre ++ p ++ post)%string.

(** [String(n)] for a whole number [n]: its decimal digits. *)
Definition decimal (n : nat) : string :=
  NilZero.string_of_uint (Nat.to_uint n).

(** [s.padStart(2, '0')]. *)
Definition padStart2 (s : string) : string :=
  match String.length s with
  | 0 => "00"
  | 1 => String "0" s
  | _ => s
  end.

(** [formatDuration], for a duration of a whole number of seconds (the
    divisions, remainders and [Math.floor] are then exact). *)
Definition formatDuration (seconds : nat) : string :=
  let hours := seconds / 3600 in
  let minutes := (seconds mod 3600) / 60 in
  let secs := seconds mod 60 in
  if 0 <? hours then
    (decimal hours ++ ":" ++ padStart2 (decimal minutes) ++ ":"
     ++ padStart2 (decimal secs))%string
  else (decimal minutes ++ ":" ++ padStart2 (decimal secs))%string.

(** Reading a label back, to compare labels: the fields between colons,
    each a decimal number, in base 60. *)
Fixpoint fields (s : string) : list string :=
  match s with
  | EmptyString => [EmptyString]
  | String c s' =>
      if Ascii.eqb c ":" then EmptyString :: fields s'
      else match fields s' with
           | x :: r => String c x :: r
           | [] => [String c EmptyString]
           end
  end.

Fixpoint no_colon (s : string) : bool :=
  match s with
  | EmptyString => true
  | String c s' => negb (Ascii.eqb c ":") && no_colon s'
  end.

Definition parse_nat (s : string) : option nat :=
  option_map Nat.of_uint (NilEmpty.uint_of_string s).

Definition parseDuration (s : string) : option nat :=
  match map parse_nat (fields s) with
  | [Some m; Some sec] => Some (60 * m + sec)
  | [Some h; Some m; Some sec] => Some (3600 * h + 60 * m + sec)
  | _ => None
  end.

(** The two decimal digits of a number below 100. *)
Definition two_digits (k : nat) : string :=
  String (ascii_of_nat (48 + k / 10))
    (String (ascii_of_nat (48 + k mod 10)) "").

End Modal.

(* ================================================================== *)
(** * MuxPlayer.tsx: the component as a state machine *)
(* ================================================================== *)

Module Player.

(** ** Data *)

(** [MuxPlayerProps]: of the optional callbacks only their presence
    matters. *)
Record Props : Type := {
  onDurationChange : bool;
  onViewTracked : bool
}.

(** [navigator.connection] or [navigator.mozConnection]: the two properties
    the component reads; [None] is [undefined]. *)
Record Connection : Type := {
  effectiveType : option string;
  conn_type : option string
}.

(** What the component reads from [navigator], [window] and [document]. *)
Record Browser : Type := {
  userAgent : string;
  innerWidth : Z;
  connection : option Connection;
  mozConnection : option Connection;
  fullscreenElement : bool;      (* [document.fullscreenElement] is non-null *)
  muxPlayerDefined : bool        (* [typeof window.MuxPlayer !== 'undefined'] *)
}.

(** The [useState] cells. *)
Record Hooks : Type := {
  isPlaying : bool;
  hasTrackedView : bool;
  isMobile : bool;
  networkConnection : string;
  isFullscreen : bool
}.

(** The [useRef] cells; for the element refs, whether [current] is set. *)
Record Refs : Type := {
  doubleClickTimeoutRef : option nat;
  containerRef : bool;
  playerRef : bool
}.

(** What the effects have registered, and the values their closures hold. *)
Record Effects : Type := {
  mounted : bool;               (* resize and fullscreenchange listeners *)
  networkListener : bool;       (* 'change' listener on the connection *)
  playerListeners : bool;       (* play, pause, durationchange, loadedmetadata *)
  playClosure : bool;           (* [hasTrackedView] as [handlePlay] captured it *)
  scriptTimer : option nat      (* [timer] of the script-check effect *)
}.

Inductive TimerKind : Type := ScriptCheck | DoubleClickReset.

Record Timer : Type := { tid : nat; due : nat; kind : TimerKind }.

(** The timer queue of the event loop, with a clock in milliseconds. *)
Record Clock : Type := {
  now : nat;
  nextTimer : nat;
  timers : list Timer
}.

(** Calls the component makes on its collaborators, in order. *)
Inductive Call : Type :=
  | SetTimeout (id delay : nat)
  | ClearTimeout (id : nat)
  | RequestFullscreen
  | ExitFullscreen
  | ConsoleWarn (msg err : string)
  | OnViewTracked
  | OnDurationChange (seconds : nat).

Record State : Type := {
  props : Props;
  hooks : Hooks;
  refs : Refs;
  effects : Effects;
  browser : Browser;
  clock : Clock;
  calls : list Call;
  unhandled : list string       (* rejections no handler caught *)
}.

(** ** Field updates *)

Definition with_hooks (f : Hooks -> Hooks) (s : State) : State :=
  {| props := props s; hooks := f (hooks s); refs := refs s;
     effects := effects s; browser := browser s; clock := clock s;
     calls := calls s; unhandled := unhandled s |}.

Definition with_refs (f : Refs -> Refs) (s : State) : State :=
  {| props := props s; hooks := hooks s; refs := f (refs s);
     effects := effects s; browser := browser s; clock := clock s;
     calls := calls s; unhandled := unhandled s |}.

Definition with_effects (f : Effects -> Effects) (s : State) : State :=
  {| props := props s; hooks := hooks s; refs := refs s;
     effects := f (effects s); browser := browser s; clock := clock s;
     calls := calls s; unhandled := unhandled s |}.

Definition with_browser (f : Browser -> Browser) (s : State) : State :=
  {| props := props s; hooks := hooks s; refs := refs s;
     effects := effects s; browser := f (browser s); clock := clock s;
     calls := calls s; unhandled := unhandled s |}.

Definition with_clock (f : Clock -> Clock) (s : State) : State :=
  {| props := props s; hooks := hooks s; refs := refs s;
     effects := effects s; browser := browser s; clock := f (clock s);
     calls := calls s; unhandled := unhandled s |}.

Definition log (c : Call) (s : State) : State :=
  {| props := props s; hooks := hooks s; refs := refs s;
     effects := effects s; browser := browser s; clock := clock s;
     calls := calls s ++ [c]; unhandled := unhandled s |}.

Definition report_unhandled (err : string) (s : State) : State :=
  {| props := props s; hooks := hooks s; refs := refs s;
     effects := effects s; browser := browser s; clock := clock s;
     calls := calls s; unhandled := unhandled s ++ [err] |}.

Definition setIsPlaying (v : bool) : State -> State :=
  with_hooks (fun h =>
    {| isPlaying := v; hasTrackedView := hasTrackedView h;
       isMobile := isMobile h; networkConnection := networkConnection h;
       isFullscreen := isFullscreen h |}).

Definition setHasTrackedView (v : bool) : State -> State :=
  with_hooks (fun h =>
    {| isPlaying := isPlaying h; hasTrackedView := v;
       isMobile := isMobile h; networkConnection := networkConnection h;
       isFullscreen := isFullscreen h |}).

Definition setIsMobile (v : bool) : State -> State :=
  with_hooks (fun h =>
    {| isPlaying := isPlaying h; hasTrackedView := hasTrackedView h;
       isMobile := v; networkConnection := networkConnection h;
       isFullscreen := isFullscreen h |}).

Definition setNetworkConnection (v : string) : State -> State :=
  with_hooks (fun h =>
    {| isPlaying := isPlaying h; hasTrackedView := hasTrackedView h;
       isMobile := isMobile h; networkConnection := v;
       isFullscreen := isFullscreen h |}).

Definition setIsFullscreen (v : bool) : State -> State :=
  with_hooks (fun h =>
    {| isPlaying := isPlaying h; hasTrackedView := hasTrackedView h;
       isMobile := isMobile h; networkConnection := networkConnection h;
       isFullscreen := v |}).

(** [doubleClickTimeoutRef.current = v]. *)
Definition set_timeoutRef (v : option nat) : State -> State :=
  with_refs (fun r =>
    {| doubleClickTimeoutRef := v; containerRef := containerRef r;
       playerRef := playerRef r |}).

(** React detaches the element refs when the component unmounts. *)
Definition detach_refs : State -> State :=
  with_refs (fun r =>
    {| doubleClickTimeoutRef := doubleClickTimeoutRef r;
       containerRef := false; playerRef := false |}).

Definition set_innerWidth (w : Z) : State -> State :=
  with_browser (fun b =>
    {| userAgent := userAgent b; innerWidth := w;
       connection := connection b; mozConnection := mozConnection b;
       fullscreenElement := fullscreenElement b;
       muxPlayerDefined := muxPlayerDefined b |}).

Definition set_fullscreenElement (el : bool) : State -> State :=
  with_browser (fun b =>
    {| userAgent := userAgent b; innerWidth := innerWidth b;
       connection := connection b; mozConnection := mozConnection b;
       fullscreenElement := el;
       muxPlayerDefined := muxPlayerDefined b |}).

(** The browser updates the connection object the component observes:
    [navigator.connection] when there is one, else
    [navigator.mozConnection]. *)
Definition set_observed_connection (c : Connection) : State -> State :=
  with_browser (fun b =>
    {| userAgent := userAgent b; innerWidth := innerWidth b;
       connection :=
         match connection b with Some _ => Some c | None => None end;
       mozConnection :=
         match connection b, mozConnection b with
         | None, Some _ => Some c
         | _, m => m
         end;
       fullscreenElement := fullscreenElement b;
       muxPlayerDefined := muxPlayerDefined b |}).

Definition set_effects (e : Effects) : State -> State :=
  with_effects (fun _ => e).

Definition set_timers (t' : nat) (ts : list Timer) : State -> State :=
  with_clock (fun c =>
    {| now := t'; nextTimer := nextTimer c; timers := ts |}).

(** ** Handlers run in a state-and-exception monad *)

Inductive Completion (A : Type) : Type :=
  | Normal (a : A) (s : State)
  | Throw (err : string) (s : State).

Arguments Normal {A} a s.
Arguments Throw {A} err s.

Definition M (A : Type) : Type := State -> Completion A.

Definition ret {A : Type} (a : A) : M A := fun s => Normal a s.

Definition bind {A B : Type} (m : M A) (k : A -> M B) : M B :=
  fun s =>
    match m s with
    | Normal a s' => k a s'
    | Throw e s' => Throw e s'
    end.

Definition get : M State := fun s => Normal s s.

Definition modify (f : State -> State) : M unit := fun s => Normal tt (f s).

Definition throw {A : Type} (err : string) : M A := fun s => Throw err s.

Notation "x <- m ;; k" := (bind m (fun x => k))
  (at level 61, m at next level, right associativity).
Notation "m ;; k" := (bind m (fun _ => k))
  (at level 61, right associativity).

(** The state a computation leaves behind, thrown or not. *)
Definition final {A : Type} (c : Completion A) : State :=
  match c with
  | Normal _ s => s
  | Throw _ s => s
  end.

Definition throws {A : Type} (c : Completion A) : bool :=
  match c with
  | Normal _ _ => false
  | Throw _ _ => true
  end.

(** ** Primitives of the host *)

(** [obj.member]: a [TypeError] when [obj] is [null] or [undefined]. *)
Definition member {A : Type} (obj : option A) : M A :=
  match obj with
  | Some a => ret a
  | None => throw "TypeError"
  end.

(** [f()] for an optional callback prop: a [TypeError] when it is
    [undefined]. *)
Definition call_prop (provided : bool) (c : Call) : M unit :=
  if provided then modify (log c) else throw "TypeError".

(** [v || 'unknown'] on a string-or-undefined value. *)
Definition or_unknown (v : option string) : string :=
  match v with
  | Some x => if Str.is_empty x then "unknown" else x
  | None => "unknown"
  end.

(** [setTimeout(callback, delay)]: the identifiers are positive and fresh. *)
Definition setTimeout (k : TimerKind) (delay : nat) : M nat :=
  fun s =>
    let c := clock s in
    let id := nextTimer c in
    Normal id
      (log (SetTimeout id delay)
         (with_clock (fun c =>
            {| now := now c; nextTimer := S id;
               timers := timers c
                         ++ [{| tid := id; due := now c + delay; kind := k |}]
            |}) s)).

(** [clearTimeout(id)]. *)
Definition clearTimeout (id : nat) : M unit :=
  modify (fun s =>
    log (ClearTimeout id)
      (with_clock (fun c =>
         {| now := now c; nextTimer := nextTimer c;
            timers := filter (fun t => negb (tid t =? id)) (timers c) |}) s)).

Definition console_warn (msg err : string) : M unit :=
  modify (log (ConsoleWarn msg err)).

(** What the browser answers to one fullscreen call: the method is missing,
    or the promise it returns is fulfilled or rejected. *)
Inductive FsOutcome : Type :=
  | Unsupported
  | Resolves
  | Rejects (err : string).

Inductive Promise : Type :=
  | Fulfilled
  | Rejected (err : string).

(** [obj.method?.()]: no call when the method is [undefined], and then the
    rest of the optional chain is skipped ([None]). *)
Definition optional_call (o : FsOutcome) (c : Call) : M (option Promise) :=
  match o with
  | Unsupported => ret None
  | Resolves => modify (log c) ;; ret (Some Fulfilled)
  | Rejects err => modify (log c) ;; ret (Some (Rejected err))
  end.

(** [.catch(handler)]: the handler runs on a rejection, and the promise
    [catch] returns is rejected only if the handler throws. *)
Definition promise_catch (p : option Promise) (handler : string -> M unit)
    : M (option Promise) :=
  fun s =>
    match p with
    | None => Normal None s
    | Some Fulfilled => Normal (Some Fulfilled) s
    | Some (Rejected err) =>
        match handler err s with
        | Normal _ s' => Normal (Some Fulfilled) s'
        | Throw err' s' => Normal (Some (Rejected err')) s'
        end
    end.

(** An expression statement drops its value; a rejected promise dropped
    without a handler is an unhandled rejection. *)
Definition discard (p : option Promise) : M unit :=
  match p with
  | Some (Rejected err) => modify (report_unhandled err)
  | _ => ret tt
  end.

(** ** The component's functions *)

Definition checkMobile : M unit :=
  s <- get ;;
  modify (setIsMobile
            (isMobileDevice (userAgent (browser s)) (innerWidth (browser s)))).

Definition detectNetwork : M unit :=
  s <- get ;;
  match connection (browser s) with
  | Some _ =>
      connection <- member (connection (browser s)) ;;
      modify (setNetworkConnection (or_unknown (effectiveType connection)))
  | None =>
      match mozConnection (browser s) with
      | Some _ =>
          connection <- member (mozConnection (browser s)) ;;
          modify (setNetworkConnection (or_unknown (conn_type connection)))
      | None => ret tt
      end
  end.

Definition handleFullscreenChange : M unit :=
  s <- get ;;
  modify (setIsFullscreen (fullscreenElement (browser s))).

Definition current (attached : bool) : option unit :=
  if attached then Some tt else None.

Definition handlePlayerDoubleClick (o : FsOutcome) : M unit :=
  s <- get ;;
  if negb (containerRef (refs s)) then ret tt
  else
    match doubleClickTimeoutRef (refs s) with
    | Some id =>
        clearTimeout id ;;
        modify (set_timeoutRef None) ;;
        if negb (fullscreenElement (browser s)) then
          _ <- member (current (containerRef (refs s))) ;;
          p <- optional_call o RequestFullscreen ;;
          p' <- promise_catch p (console_warn "Fullscreen request failed:") ;;
          discard p'
        else
          p <- optional_call o ExitFullscreen ;;
          p' <- promise_catch p (console_warn "Exit fullscreen failed:") ;;
          discard p'
    | None =>
        id <- setTimeout DoubleClickReset 300 ;;
        modify (set_timeoutRef (Some id))
    end.

(** [handlePlay] reads [hasTrackedView] from the closure of the render that
    registered it. *)
Definition handlePlay : M unit :=
  modify (setIsPlaying true) ;;
  s <- get ;;
  if negb (playClosure (effects s)) && onViewTracked (props s) then
    modify (setHasTrackedView true) ;;
    call_prop (onViewTracked (props s)) OnViewTracked
  else ret tt.

Definition handlePause : M unit := modify (setIsPlaying false).

(** [handleDurationChange] and [handleLoadedmetadata] have the same body;
    [duration] is [player.duration] in seconds, which the component only
    tests for truthiness ([None] or [0] being falsy) and passes on. *)
Definition handleDurationChange (duration : option nat) : M unit :=
  s <- get ;;
  match duration with
  | Some (S n) =>
      if onDurationChange (props s) then
        call_prop (onDurationChange (props s)) (OnDurationChange (S n))
      else ret tt
  | _ => ret tt
  end.

Definition handleLoadedmetadata (duration : option nat) : M unit :=
  handleDurationChange duration.

(** ** Lifecycle *)

(** The state of the first render.  [error] is never set, so the player
    markup is always rendered and React attaches both element refs before
    any effect runs. *)
Definition initial (p : Props) (b : Browser) : State :=
  {| props := p;
     hooks := {| isPlaying := false; hasTrackedView := false;
                 isMobile := false; networkConnection := "unknown";
                 isFullscreen := false |};
     refs := {| doubleClickTimeoutRef := None; containerRef := true;
                playerRef := true |};
     effects := {| mounted := false; networkListener := false;
                   playerListeners := false; playClosure := false;
                   scriptTimer := None |};
     browser := b;
     clock := {| now := 0; nextTimer := 1; timers := [] |};
     calls := [];
     unhandled := [] |}.

Definition has_connection (b : Browser) : bool :=
  match connection b, mozConnection b with
  | None, None => false
  | _, _ => true
  end.

(** The five [useEffect] bodies, in source order. *)
Definition mount_effects : M unit :=
  checkMobile ;;
  detectNetwork ;;
  s <- get ;;
  timer <- (if negb (muxPlayerDefined (browser s))
            then id <- setTimeout ScriptCheck 100 ;; ret (Some id)
            else ret None) ;;
  modify (set_effects
            {| mounted := true;
               networkListener := has_connection (browser s);
               playerListeners := playerRef (refs s);
               playClosure := hasTrackedView (hooks s);
               scriptTimer := timer |}).

(** The cleanups of the effects.  Only the script-check effect owns a
    timer it clears; nothing refers to [doubleClickTimeoutRef]. *)
Definition unmount : M unit :=
  s <- get ;;
  if negb (mounted (effects s)) then ret tt
  else
    (match scriptTimer (effects s) with
     | Some timer => clearTimeout timer
     | None => ret tt
     end) ;;
    modify (set_effects
              {| mounted := false; networkListener := false;
                 playerListeners := false;
                 playClosure := playClosure (effects s);
                 scriptTimer := None |}) ;;
    modify detach_refs.

(** The callback of a timer. *)
Definition fire (t : Timer) : M unit :=
  match kind t with
  | ScriptCheck => ret tt
  | DoubleClickReset => modify (set_timeoutRef None)
  end.

Fixpoint fire_all (ts : list Timer) : M unit :=
  match ts with
  | [] => ret tt
  | t :: ts' => fire t ;; fire_all ts'
  end.

Definition is_due (t' : nat) (t : Timer) : bool := due t <=? t'.

(** The clock moves on by [ms]; every timer that is due by then runs. *)
Definition advance (ms : nat) : M unit :=
  s <- get ;;
  let t' := now (clock s) + ms in
  let ts := timers (clock s) in
  modify (set_timers t' (filter (fun t => negb (is_due t' t)) ts)) ;;
  fire_all (filter (is_due t') ts).

(** What can happen to a mounted player. *)
Inductive Event : Type :=
  | Resize (w : Z)
  | ConnectionChange (c : Connection)
  | FullscreenChange (el : bool)
  | DblClick (o : FsOutcome)
  | Play
  | Pause
  | DurationChange (duration : option nat)
  | LoadedMetadata (duration : option nat)
  | Advance (ms : nat)
  | Unmount.

(** An event reaches the listener registered for it, if any. *)
Definition dispatch (e : Event) : M unit :=
  s <- get ;;
  match e with
  | Resize w =>
      modify (set_innerWidth w) ;;
      if mounted (effects s) then checkMobile else ret tt
  | ConnectionChange c =>
      modify (set_observed_connection c) ;;
      if networkListener (effects s) then detectNetwork else ret tt
  | FullscreenChange el =>
      modify (set_fullscreenElement el) ;;
      if mounted (effects s) then handleFullscreenChange else ret tt
  | DblClick o =>
      if mounted (effects s) then handlePlayerDoubleClick o else ret tt
  | Play => if playerListeners (effects s) then handlePlay else ret tt
  | Pause => if playerListeners (effects s) then handlePause else ret tt
  | DurationChange d =>
      if playerListeners (effects s) then handleDurationChange d else ret tt
  | LoadedMetadata d =>
      if playerListeners (effects s) then handleLoadedmetadata d else ret tt
  | Advance ms => advance ms
  | Unmount => unmount
  end.

(** React commits the state updates of a handler before the next event: the
    player effect, which depends on [hasTrackedView], registers its
    listeners again with the new value in their closure. *)
Definition commit (s : State) : State :=
  if playerListeners (effects s) then
    set_effects
      {| mounted := mounted (effects s);
         networkListener := networkListener (effects s);
         playerListeners := true;
         playClosure := hasTrackedView (hooks s);
         scriptTimer := scriptTimer (effects s) |} s
  else s.

Definition step (s : State) (e : Event) : State :=
  commit (final (dispatch e s)).

Definition run (tr : list Event) (s : State) : State := fold_left step tr s.

(** A mounted player: first render, effects, commit. *)
Definition mount (p : Props) (b : Browser) : State :=
  commit (final (mount_effects (initial p b))).

(** ** Rendering *)

(** [preload] and [max-resolution] of the [mux-player] element. *)
Record PlaybackConfig : Type := {
  maxResolution : string;
  preload : string
}.

Definition render_config (s : State) : PlaybackConfig :=
  {| maxResolution :=
       getOptimalMaxResolution (networkConnection (hooks s))
         (isMobile (hooks s));
     preload :=
       getPreloadStrategy (networkConnection (hooks s))
         (isMobile (hooks s)) |}.

(** ** Observations used by the statements *)

(** The detector is idle when no timer handle is held. *)
Definition idle (s : State) : bool :=
  match doubleClickTimeoutRef (refs s) with
  | None => true
  | Some _ => false
  end.

(** A double click delivered in [s] completes a pair: the handler takes
    the branch that clears the timer and toggles fullscreen. *)
Definition completes_pair (s : State) : bool :=
  mounted (effects s) && containerRef (refs s) && negb (idle s).

(** The number of completed pairs along a trace: the detector's
    [doubleTap] signals. *)
Fixpoint doubleTaps (tr : list Event) (s : State) : nat :=
  match tr with
  | [] => 0
  | e :: tr' =>
      (match e with
       | DblClick _ => if completes_pair s then 1 else 0
       | _ => 0
       end) + doubleTaps tr' (step s e)
  end.

Definition is_fullscreen_call (c : Call) : bool :=
  match c with
  | RequestFullscreen | ExitFullscreen => true
  | _ => false
  end.

Definition is_view_tracked (c : Call) : bool :=
  match c with
  | OnViewTracked => true
  | _ => false
  end.

Definition count (f : Call -> bool) (l : list Call) : nat :=
  List.length (filter f l).

(** The pending timers of the double-click detector. *)
Definition is_reset (t : Timer) : bool :=
  match kind t with
  | DoubleClickReset => true
  | ScriptCheck => false
  end.

Definition pending_resets (s : State) : list Timer :=
  filter is_reset (timers (clock s)).

(** The states a mounted player can be in: those some sequence of events
    leads to. *)
Definition reachable (s : State) : Prop :=
  exists (p : Props) (b : Browser) (tr : list Event), s = run tr (mount p b).

(** What holds of the detector in every reachable state: it has at most
    one timer pending, the one whose handle the ref holds, and the container
    is attached as long as the component is mounted. *)
Definition detector_ok (s : State) : Prop :=
  match pending_resets s with
  | [] => True
  | [t] => doubleClickTimeoutRef (refs s) = Some (tid t)
  | _ => False
  end
  /\ (mounted (effects s) = true -> containerRef (refs s) = true).

(** The calls one completed pair makes after clearing the timer: the call
    that toggles fullscreen, if the browser has the method, and a warning
    if the promise is rejected. *)
Definition toggle_calls (inFullscreen : bool) (o : FsOutcome) : list Call :=
  let toggle := if inFullscreen then ExitFullscreen else RequestFullscreen in
  let msg := if inFullscreen then "Exit fullscreen failed:"
             else "Fullscreen request failed:" in
  match o with
  | Unsupported => []
  | Resolves => [toggle]
  | Rejects err => [toggle; ConsoleWarn msg err]
  end.

Definition supported (o : FsOutcome) : bool :=
  match o with
  | Unsupported => false
  | _ => true
  end.

(** The state [handlePlayerDoubleClick] leaves when it arms the detector:
    a timer of 300 ms is queued and its handle stored. *)
Definition arm (s : State) : State :=
  let id := nextTimer (clock s) in
  set_timeoutRef (Some id)
    (log (SetTimeout id 300)
       (with_clock (fun c =>
          {| now := now c; nextTimer := S id;
             timers := timers c
                       ++ [{| tid := id; due := now c + 300;
                              kind := DoubleClickReset |}] |}) s)).

(** The state it leaves when the double click completes a pair: the timer
    [id] is cleared, the handle dropped, and the toggle has made its
    calls. *)
Definition pair (o : FsOutcome) (id : nat) (s : State) : State :=
  fold_left (fun s' c => log c s')
    (toggle_calls (fullscreenElement (browser s)) o)
    (set_timeoutRef None
       (log (ClearTimeout id)
          (with_clock (fun c =>
             {| now := now c; nextTimer := nextTimer c;
                timers := filter (fun t => negb (tid t =? id)) (timers c) |})
             s))).

(** [handlePlay] notifies: its listener is registered, the closure holds
    [hasTrackedView = false], and [onViewTracked] was passed. *)
Definition notifies (s : State) : bool :=
  playerListeners (effects s) && negb (playClosure (effects s))
  && onViewTracked (props s).

(** The calls one event makes in state [s]. *)
Definition emitted (s : State) (e : Event) : list Call :=
  match e with
  | DblClick o =>
      if mounted (effects s) && containerRef (refs s) then
        match doubleClickTimeoutRef (refs s) with
        | None => [SetTimeout (nextTimer (clock s)) 300]
        | Some id =>
            ClearTimeout id
            :: toggle_calls (fullscreenElement (browser s)) o
        end
      else []
  | Play => if notifies s then [OnViewTracked] else []
  | DurationChange d | LoadedMetadata d =>
      if playerListeners (effects s) && onDurationChange (props s) then
        match d with
        | Some (S n) => [OnDurationChange (S n)]
        | _ => []
        end
      else []
  | Unmount =>
      if mounted (effects s) then
        match scriptTimer (effects s) with
        | Some timer => [ClearTimeout timer]
        | None => []
        end
      else []
  | _ => []
  end.

(** The network status button, rendered on mobile only: [WifiOff] (yellow)
    on '2g' and 'slow-2g', [Wifi] (green) otherwise. *)
Inductive Indicator : Type := WifiOff | Wifi.

Definition network_indicator (s : State) : option Indicator :=
  if isMobile (hooks s) then
    Some (if String.eqb (networkConnection (hooks s)) "2g"
             || String.eqb (networkConnection (hooks s)) "slow-2g"
          then WifiOff else Wifi)
  else None.

(** The hint "Double-tap for fullscreen": [isMobile && !isPlaying]. *)
Definition help_text_shown (s : State) : bool :=
  isMobile (hooks s) && negb (isPlaying (hooks s)).

(** Whether the player element last reported [play] rather than [pause],
    before the unmount; [acc] when it reported neither. *)
Fixpoint last_playing (tr : list Event) (acc : bool) : bool :=
  match tr with
  | [] => acc
  | Unmount :: _ => acc
  | Play :: tr' => last_playing tr' true
  | Pause :: tr' => last_playing tr' false
  | _ :: tr' => last_playing tr' acc
  end.

(** No listener of the component is registered any more. *)
Definition unmounted (s : State) : bool :=
  negb (mounted (effects s)) && negb (networkListener (effects s))
  && negb (playerListeners (effects s)).

(** What [detectNetwork] reads off the browser. *)
Definition reading (b : Browser) : string :=
  match connection b, mozConnection b with
  | Some c, _ => or_unknown (effectiveType c)
  | None, Some c => or_unknown (conn_type c)
  | None, None => "unknown"
  end.

(** The component's device class and network value are those of the
    browser as it is now, and it listens to the connection if there is
    one. *)
Definition in_sync (s : State) : Prop :=
  isMobile (hooks s) =
    isMobileDevice (userAgent (browser s)) (innerWidth (browser s))
  /\ networkConnection (hooks s) = reading (browser s)
  /\ networkListener (effects s) = has_connection (browser s).

Definition is_timer_call (c : Call) : bool :=
  match c with
  | SetTimeout _ _ | ClearTimeout _ => true
  | _ => false
  end.

(** A series of double clicks, each followed by a pause. *)
Definition taps (l : list (FsOutcome * nat)) : list Event :=
  flat_map (fun od => [DblClick (fst od); Advance (snd od)]) l.

(** How many times [onViewTracked] has been called. *)
Definition views (s : State) : nat := count is_view_tracked (calls s).

(** In every reachable state the notification has been sent once if
    [hasTrackedView] is set and never otherwise, and the registered
    [handlePlay] holds the current [hasTrackedView]. *)
Definition view_ok (s : State) : Prop :=
  views s = (if hasTrackedView (hooks s) then 1 else 0)
  /\ (playerListeners (effects s) = true ->
      playClosure (effects s) = hasTrackedView (hooks s)).

End Player.

(* ================================================================== *)
(** * The modal around the player *)
(* ================================================================== *)

Module App.

(** The props [VideoPlaybackModal] passes to [MuxPlayer]: [playbackId],
    [thumbnailUrl], [title] and [onDurationChange]; no [onViewTracked]. *)
Definition player_props : Player.Props :=
  {| Player.onDurationChange := true; Player.onViewTracked := false |}.














End App.

(* ================================================================== *)
(** * Browsers used in the statements *)
(* ================================================================== *)

(** A desktop browser in a narrow window. *)
Definition narrow_desktop (c m : option Player.Connection) (fs mux : bool)
    : Player.Browser :=
  {| Player.userAgent :=
       "Mozilla/5.0 (Windows NT 10.0; Win64; x64) AppleWebKit/537.36 (KHTML, like Gecko) Chrome/120.0.0.0 Safari/537.36";
     Player.innerWidth := 768%Z;
     Player.connection := c;
     Player.mozConnection := m;
     Player.fullscreenElement := fs;
     Player.muxPlayerDefined := mux |}.

(** Firefox without [navigator.connection], on a wireless network. *)
Definition firefox_wifi : Player.Browser :=
  {| Player.userAgent :=
       "Mozilla/5.0 (Android 13; Mobile; rv:120.0) Gecko/120.0 Firefox/120.0";
     Player.innerWidth := 412%Z;
     Player.connection := None;
     Player.mozConnection :=
       Some {| Player.effectiveType := None;
               Player.conn_type := Some "wifi" |};
     Player.fullscreenElement := false;
     Player.muxPlayerDefined := true |}.

(* ================================================================== *)
(** * Properties of the configuration selector *)
(* ================================================================== *)


Lemma mount_networkConnection (p : Player.Props) (b : Player.Browser) :
  Player.networkConnection (Player.hooks (Player.mount p b)) =
  match Player.connection b, Player.mozConnection b with
  | Some c, _ => Player.or_unknown (Player.effectiveType c)
  | None, Some c => Player.or_unknown (Player.conn_type c)
  | None, None => "unknown"
  end.
Proof.
  destruct b as [ua w [c|] [m|] fs [|]]; reflexivity.
Qed.

(** C1.  For either device class, [getOptimalMaxResolution] maps the tiers
    very-poor (slow-2g) and poor (2g) to 480p, the 3g tier to 720p, the
    excellent tier (4g) to 1080p, and the unknown tier to 720p on mobile and
    1080p on desktop; the [max-resolution] attribute the player renders is
    that value. *)
Theorem max_resolution_by_tier (isMobile : bool) (t : NetworkConnection) :
  getOptimalMaxResolution (net_string t) isMobile =
    match t with
    | NetSlow2g | Net2g => "480p"
    | Net3g => "720p"
    | Net4g => "1080p"
    | NetUnknown => if isMobile then "720p" else "1080p"
    end
  /\ forall s : Player.State,
       Player.maxResolution
         (Player.render_config
            (Player.setIsMobile isMobile
               (Player.setNetworkConnection (net_string t) s))) =
       getOptimalMaxResolution (net_string t) isMobile.
Proof.
  split.
  - destruct t; reflexivity.
  - intros s. reflexivity.
Qed.

Lemma getPreloadStrategy_device (networkConnection : string)
    (isMobile : bool) :
  getPreloadStrategy networkConnection isMobile =
  if isMobile then "metadata" else "auto".
Proof.
  unfold getPreloadStrategy.
  destruct isMobile; simpl; [|reflexivity].
  destruct (_ || _); reflexivity.
Qed.

(** C2.  Whatever the network value, [getPreloadStrategy] is [metadata] on
    mobile and [auto] on desktop: it depends on the device class only, and
    so does the [preload] attribute the player renders. *)
Theorem preload_by_device_only (networkConnection : string) (isMobile : bool) :
  getPreloadStrategy networkConnection isMobile =
    (if isMobile then "metadata" else "auto")
  /\ (forall other : string,
        getPreloadStrategy other isMobile =
        getPreloadStrategy networkConnection isMobile)
  /\ forall s : Player.State,
       Player.preload
         (Player.render_config
            (Player.setIsMobile isMobile
               (Player.setNetworkConnection networkConnection s))) =
       (if isMobile then "metadata" else "auto").
Proof.
  repeat split.
  - apply getPreloadStrategy_device.
  - intros other. now rewrite !getPreloadStrategy_device.
  - intros s. unfold Player.render_config. simpl.
    apply getPreloadStrategy_device.
Qed.



(* ================================================================== *)
(** * Network detection *)
(* ================================================================== *)

(** [detectNetwork] completes normally in every browser: each property read
    is behind the test that its object exists. *)
Lemma detectNetwork_never_throws (s : Player.State) :
  Player.throws (Player.detectNetwork s) = false.
Proof.
  unfold Player.detectNetwork, Player.bind, Player.get.
  destruct (Player.connection (Player.browser s)) as [c|]; [reflexivity|].
  destruct (Player.mozConnection (Player.browser s)) as [m|]; reflexivity.
Qed.

(** Without [navigator.connection] and [navigator.mozConnection] the value
    stays what it was, and a mounted player holds ['unknown']. *)
Lemma no_connection_unknown (p : Player.Props) (b : Player.Browser) :
  Player.has_connection b = false ->
  Player.networkConnection (Player.hooks (Player.mount p b)) = "unknown".
Proof.
  intros H. rewrite mount_networkConnection.
  unfold Player.has_connection in H.
  destruct (Player.connection b), (Player.mozConnection b);
    try discriminate; reflexivity.
Qed.

(** A value reported as [effectiveType] that is one of '4g', '3g', '2g',
    'slow-2g' is stored as it is. *)
Lemma effectiveType_tier_kept (p : Player.Props) (b : Player.Browser)
    (c : Player.Connection) (t : NetworkConnection) :
  Player.connection b = Some c ->
  Player.effectiveType c = Some (net_string t) ->
  Player.networkConnection (Player.hooks (Player.mount p b)) = net_string t.
Proof.
  intros Hc He. rewrite mount_networkConnection, Hc, He.
  destruct t; reflexivity.
Qed.

(** Whatever non-empty string [mozConnection.type] holds is stored as the
    network value when there is no [navigator.connection]. *)
Lemma mozConnection_type_stored (p : Player.Props) (b : Player.Browser)
    (c : Player.Connection) (v : string) :
  Player.connection b = None ->
  Player.mozConnection b = Some c ->
  Player.conn_type c = Some v ->
  Str.is_empty v = false ->
  Player.networkConnection (Player.hooks (Player.mount p b)) = v.
Proof.
  intros Hc Hm Ht Hv. rewrite mount_networkConnection, Hc, Hm, Ht.
  unfold Player.or_unknown. now rewrite Hv.
Qed.

(** C9, at the failing input.  With only [navigator.mozConnection], whose
    [type] is ['wifi'], mounting completes without an exception and the
    component stores ['wifi'] as its network value, which is none of the
    five values of [NetworkConnection]; the selector then treats it as it
    treats ['unknown']. *)
Theorem mozConnection_type_not_a_tier :
  let p := {| Player.onDurationChange := false;
              Player.onViewTracked := false |} in
  Player.throws (Player.mount_effects (Player.initial p firefox_wifi)) = false
  /\ Player.networkConnection
       (Player.hooks (Player.mount p firefox_wifi)) = "wifi"
  /\ is_tier "wifi" = false
  /\ Player.render_config (Player.mount p firefox_wifi)
     = {| Player.maxResolution := "720p"; Player.preload := "metadata" |}.
Proof.
  repeat split; vm_compute; reflexivity.
Qed.

(* ================================================================== *)
(** * Identifier extraction *)
(* ================================================================== *)

Section StringFacts.

Lemma strip_Some (p s r : string) :
  Str.strip p s = Some r <-> s = (p ++ r)%string.
Proof.
  revert s. induction p as [|a p IH]; intros s; simpl.
  - split; intros H; [now inversion H | now subst].
  - destruct s as [|b s]; [split; discriminate|].
    destruct (Ascii.eqb_spec a b) as [->|Hab].
    + rewrite IH. split; intros H; [now subst | now inversion H].
    + split; [discriminate|]. intros H. simpl in H. congruence.
Qed.

Lemma includes_contains (s p : string) :
  Str.includes s p = true <-> Modal.contains s p.
Proof.
  unfold Modal.contains. induction s as [|c s IH].
  - simpl. destruct (Str.strip p "") as [r|] eqn:E.
    + apply strip_Some in E. split; [|reflexivity].
      intros _. exists "", r. exact E.
    + split; [discriminate|]. intros (pre & post & H).
      destruct pre; [|discriminate]. simpl in H.
      apply strip_Some in H. congruence.
  - simpl. destruct (Str.strip p (String c s)) as [r|] eqn:E.
    + apply strip_Some in E. split; [|reflexivity].
      intros _. exists "", r. exact E.
    + rewrite IH. split.
      * intros (pre & post & H). exists (String c pre), post. simpl.
        now rewrite H.
      * intros (pre & post & H). destruct pre as [|c' pre].
        -- simpl in H. apply strip_Some in H. congruence.
        -- simpl in H. inversion H. now exists pre, post.
Qed.

Lemma take_alnum_all (s : string) : Str.all_alnum (Str.take_alnum s) = true.
Proof.
  induction s as [|c s IH]; simpl; [reflexivity|].
  destruct (Str.is_alnum c) eqn:E; simpl; [|reflexivity].
  now rewrite E.
Qed.

Lemma take_alnum_split (s : string) :
  exists post,
    s = (Str.take_alnum s ++ post)%string /\ Str.starts_alnum post = false.
Proof.
  induction s as [|c s (post & Hs & Hp)]; simpl.
  - now exists "".
  - destruct (Str.is_alnum c) eqn:E.
    + exists post. simpl. split; [now rewrite <- Hs | exact Hp].
    + exists (String c s). simpl. now split.
Qed.

Lemma take_alnum_app (g post : string) :
  Str.all_alnum g = true -> Str.starts_alnum post = false ->
  Str.take_alnum (g ++ post) = g.
Proof.
  induction g as [|c g IH]; simpl; intros Hg Hp.
  - destruct post as [|c post]; simpl in *; [reflexivity|]. now rewrite Hp.
  - apply andb_true_iff in Hg as [Hc Hg]. rewrite Hc. now rewrite IH.
Qed.

Lemma append_same_length (a b c d : string) :
  (a ++ b)%string = (c ++ d)%string ->
  String.length a = String.length c ->
  a = c /\ b = d.
Proof.
  revert c. induction a as [|x a IH]; intros [|y c]; simpl;
    try discriminate.
  - now intros ->.
  - intros H L. inversion H; subst. injection L as L.
    destruct (IH c H2 L) as [-> ->]. now split.
Qed.

End StringFacts.

Section MuxMatch.

Lemma mux_match_here_occurs (s g : string) :
  Modal.mux_match_here s = Some g <-> exists post, Modal.occurs_at "" g post s.
Proof.
  unfold Modal.mux_match_here, Modal.occurs_at. split.
  - destruct (Str.strip "stream.mux.com/" s) as [rest|] eqn:E;
      [|discriminate].
    apply strip_Some in E.
    destruct (Str.is_empty (Str.take_alnum rest)) eqn:Hg; [discriminate|].
    intros H. inversion H; subst g.
    destruct (take_alnum_split rest) as (post & Hr & Hp).
    exists post. repeat split; auto using take_alnum_all.
    rewrite E at 1. rewrite Hr at 1. reflexivity.
  - intros (post & Hs & Hne & Hall & Hp). simpl in Hs.
    assert (E : Str.strip "stream.mux.com/" s = Some (g ++ post)%string)
      by (apply strip_Some; exact Hs).
    rewrite E. rewrite (take_alnum_app _ _ Hall Hp), Hne. reflexivity.
Qed.

Lemma occurs_at_cons (c : ascii) (pre id post s : string) :
  Modal.occurs_at (String c pre) id post (String c s) <-> Modal.occurs_at pre id post s.
Proof.
  unfold Modal.occurs_at. simpl. split; intros (H & R); split; auto.
  - now inversion H.
  - now rewrite H.
Qed.

Lemma mux_match_first (s g : string) :
  Modal.mux_match s = Some g -> Modal.first_id s g.
Proof.
  unfold Modal.first_id. induction s as [|c s IH].
  - simpl. discriminate.
  - simpl Modal.mux_match.
    destruct (Modal.mux_match_here (String c s)) as [g'|] eqn:E.
    + intros H. inversion H; subst. apply mux_match_here_occurs in E.
      destruct E as (post & E). exists "", post. split; [exact E|].
      intros; simpl; lia.
    + intros H. destruct (IH H) as (pre & post & Ho & Hleft).
      exists (String c pre), post. split; [exact (proj2 (occurs_at_cons _ _ _ _ _) Ho)|].
      intros pre' id' post' Ho'. destruct pre' as [|c' pre'].
      * assert (Some id' = None) by
          (rewrite <- E; symmetry; apply mux_match_here_occurs;
           now exists post').
        discriminate.
      * assert (c' = c) by (destruct Ho' as (Hs & _); now inversion Hs).
        subst c'. apply (proj1 (occurs_at_cons _ _ _ _ _)) in Ho'.
        specialize (Hleft _ _ _ Ho'). simpl. lia.
Qed.

Lemma mux_match_None (s : string) :
  Modal.mux_match s = None ->
  forall pre id post, ~ Modal.occurs_at pre id post s.
Proof.
  induction s as [|c s IH]; simpl.
  - intros _ pre id post (Hs & _). destruct pre; discriminate.
  - destruct (Modal.mux_match_here (String c s)) eqn:E; [discriminate|].
    intros H pre id post Ho. destruct pre as [|c' pre].
    + assert (Some id = None) by
        (rewrite <- E; symmetry; apply mux_match_here_occurs;
         now exists post).
      discriminate.
    + assert (c' = c) by (destruct Ho as (Hs & _); now inversion Hs).
      subst c'. apply (proj1 (occurs_at_cons _ _ _ _ _)) in Ho.
      exact (IH H _ _ _ Ho).
Qed.

Lemma first_id_unique (s g g' : string) :
  Modal.first_id s g -> Modal.first_id s g' -> g = g'.
Proof.
  intros (pre & post & Ho & Hl) (pre' & post' & Ho' & Hl').
  assert (L : String.length pre = String.length pre').
  { specialize (Hl _ _ _ Ho'). specialize (Hl' _ _ _ Ho). lia. }
  destruct Ho as (Hs & _ & Ha & Hp), Ho' as (Hs' & _ & Ha' & Hp').
  rewrite Hs in Hs'.
  destruct (append_same_length _ _ _ _ Hs' L) as [_ Hrest].
  simpl in Hrest.
  assert (T : Str.take_alnum (g ++ post) = Str.take_alnum (g' ++ post'))
    by (f_equal; congruence).
  now rewrite !take_alnum_app in T.
Qed.

Lemma occurs_contains_host (pre id post s : string) :
  Modal.occurs_at pre id post s -> Modal.contains s "stream.mux.com".
Proof.
  intros (Hs & _). exists pre, ("/" ++ id ++ post)%string.
  rewrite Hs. reflexivity.
Qed.

Lemma occurs_nonempty (pre id post s : string) :
  Modal.occurs_at pre id post s -> Str.is_empty s = false.
Proof.
  intros (Hs & _). rewrite Hs. destruct pre; reflexivity.
Qed.

(** [getPlaybackId] on a URL in which an identifier occurs. *)
Lemma getPlaybackId_first (url id : string) :
  Modal.first_id url id -> Modal.getPlaybackId url = id.
Proof.
  intros Hf. pose proof Hf as (pre & post & Ho & _).
  unfold Modal.getPlaybackId.
  rewrite (occurs_nonempty _ _ _ _ Ho).
  rewrite (proj2 (includes_contains _ _) (occurs_contains_host _ _ _ _ Ho)).
  destruct (Modal.mux_match url) as [g|] eqn:E.
  - apply mux_match_first in E. exact (first_id_unique _ _ _ E Hf).
  - exfalso. exact (mux_match_None _ E _ _ _ Ho).
Qed.

End MuxMatch.

Lemma first_id_or_none (url : string) :
  (exists id, Modal.first_id url id)
  \/ (forall pre id post, ~ Modal.occurs_at pre id post url).
Proof.
  destruct (Modal.mux_match url) as [g|] eqn:E.
  - left. exists g. now apply mux_match_first.
  - right. now apply mux_match_None.
Qed.

Lemma not_contains (s p : string) :
  Str.includes s p = false -> ~ Modal.contains s p.
Proof.
  intros H C. apply includes_contains in C. congruence.
Qed.

(** C3 as stated fails on the code.  In [https://stream.mux.com/abc/def]
    the pattern matches and the trailing path segment is [def], but
    [getPlaybackId] returns [abc], the run that follows the host.  And
    [stream.mux.com], which has no [://] and where the pattern finds no
    identifier, is not returned unchanged: the result is empty. *)
Lemma getPlaybackId_not_trailing_segment :
  (let url := "https://stream.mux.com/abc/def" in
   Modal.mux_match url = Some "abc"
   /\ Str.after_last_slash url = "def"
   /\ Modal.spec_getPlaybackId url = "def"
   /\ Modal.getPlaybackId url = "abc"
   /\ Modal.getPlaybackId url <> Modal.spec_getPlaybackId url)
  /\ (let url := "stream.mux.com" in
      Modal.mux_match url = None
      /\ Str.includes url "://" = false
      /\ Modal.spec_getPlaybackId url = url
      /\ Modal.getPlaybackId url = ""
      /\ Modal.getPlaybackId url <> Modal.spec_getPlaybackId url).
Proof.
  split; cbv zeta; repeat split; try reflexivity;
    vm_compute; discriminate.
Qed.

(** C3, amended.  For every content URL: when an identifier occurs in it
    (the text [stream.mux.com/] followed by a non-empty run of letters and
    digits), [getPlaybackId] returns the run of the leftmost occurrence,
    which is the path segment after the host and not the last one; when the
    URL contains [stream.mux.com] without such an occurrence the result is
    empty, with or without a scheme; a URL containing neither
    [stream.mux.com] nor [://] is returned unchanged; any other URL gives
    the empty result.  One of the first two cases or the absence of the
    host always applies.  The modal renders the player exactly when the
    result is not empty, and the message that no playback identifier could
    be extracted otherwise. *)
Theorem getPlaybackId_rule (content_url : string) :
  (forall id, Modal.first_id content_url id ->
     Modal.getPlaybackId content_url = id
     /\ Modal.player_section content_url = Modal.MuxPlayerElement id)
  /\ (Modal.contains content_url "stream.mux.com" ->
      (forall pre id post, ~ Modal.occurs_at pre id post content_url) ->
      Modal.getPlaybackId content_url = "")
  /\ (~ Modal.contains content_url "stream.mux.com" ->
      ~ Modal.contains content_url "://" ->
      Modal.getPlaybackId content_url = content_url)
  /\ (~ Modal.contains content_url "stream.mux.com" ->
      Modal.contains content_url "://" ->
      Modal.getPlaybackId content_url = "")
  /\ ((exists id, Modal.first_id content_url id)
      \/ (forall pre id post, ~ Modal.occurs_at pre id post content_url))
  /\ (Modal.getPlaybackId content_url = "" ->
      Modal.player_section content_url = Modal.UnableToExtract)
  /\ (forall id, Modal.getPlaybackId content_url = id -> id <> "" ->
      Modal.player_section content_url = Modal.MuxPlayerElement id).
Proof.
  assert (Hsec : forall id, Modal.getPlaybackId content_url = id ->
                 id <> "" ->
                 Modal.player_section content_url = Modal.MuxPlayerElement id).
  { intros id Hid Hne. unfold Modal.player_section. rewrite Hid.
    destruct id; [contradiction|reflexivity]. }
  repeat split.
  - now apply getPlaybackId_first.
  - apply Hsec; [now apply getPlaybackId_first|].
    destruct H as (pre & post & (_ & Hne & _) & _).
    intros ->. discriminate.
  - intros Hc Hno. unfold Modal.getPlaybackId.
    destruct (Str.is_empty content_url); [reflexivity|].
    rewrite (proj2 (includes_contains _ _) Hc).
    destruct (Modal.mux_match content_url) as [g|] eqn:E; [|reflexivity].
    apply mux_match_first in E. destruct E as (pre & post & Ho & _).
    exfalso. exact (Hno _ _ _ Ho).
  - intros Hh Hs. unfold Modal.getPlaybackId.
    destruct content_url as [|c u]; [reflexivity|]. simpl Str.is_empty.
    cbv iota.
    destruct (Str.includes (String c u) "stream.mux.com") eqn:E1.
    { exfalso. apply Hh. now apply includes_contains. }
    destruct (Str.includes (String c u) "://") eqn:E2.
    { exfalso. apply Hs. now apply includes_contains. }
    reflexivity.
  - intros Hh Hs. unfold Modal.getPlaybackId.
    destruct (Str.is_empty content_url); [reflexivity|].
    destruct (Str.includes content_url "stream.mux.com") eqn:E1.
    { exfalso. apply Hh. now apply includes_contains. }
    now rewrite (proj2 (includes_contains _ _) Hs).
  - apply first_id_or_none.
  - intros H. unfold Modal.player_section. now rewrite H.
  - exact Hsec.
Qed.

(** The rule on the three URLs the specification lists. *)
Lemma getPlaybackId_rule_examples :
  Modal.getPlaybackId "https://stream.mux.com/abc123" = "abc123"
  /\ Modal.player_section "https://stream.mux.com/abc123"
     = Modal.MuxPlayerElement "abc123"
  /\ Modal.getPlaybackId "abc123" = "abc123"
  /\ Modal.getPlaybackId "https://unrelated.example.com/x" = "".
Proof.
  split; [|split; [|split]].
  - apply (proj1 (getPlaybackId_rule "https://stream.mux.com/abc123")).
    apply mux_match_first. reflexivity.
  - apply (proj1 (getPlaybackId_rule "https://stream.mux.com/abc123")).
    apply mux_match_first. reflexivity.
  - apply (proj1 (proj2 (proj2 (getPlaybackId_rule "abc123"))));
      apply not_contains; reflexivity.
  - apply (proj1 (proj2 (proj2 (proj2
             (getPlaybackId_rule "https://unrelated.example.com/x"))))).
    + apply not_contains; reflexivity.
    + apply includes_contains; reflexivity.
Defined.

(* ================================================================== *)
(** * The event loop: how one step changes the state *)
(* ================================================================== *)

Section Steps.

Import Player.

Lemma count_app (f : Call -> bool) (l l' : list Call) :
  count f (l ++ l') = count f l + count f l'.
Proof.
  unfold count. now rewrite filter_app, length_app.
Qed.

(** Running the callbacks of a batch of timers: the handle is dropped when
    one of them belongs to the detector; nothing else changes. *)
Lemma fire_all_closed (ts : list Timer) (s : State) :
  fire_all ts s =
  Normal tt (if existsb is_reset ts then set_timeoutRef None s else s).
Proof.
  revert s. induction ts as [|t ts IH]; intros s; [reflexivity|].
  simpl. unfold bind, fire, is_reset.
  destruct (kind t); simpl.
  - apply IH.
  - unfold modify. rewrite IH. destruct (existsb is_reset ts); reflexivity.
Qed.

Lemma advance_closed (ms : nat) (s : State) :
  advance ms s =
  let t' := now (clock s) + ms in
  let s1 :=
    set_timers t'
      (filter (fun t => negb (is_due t' t)) (timers (clock s))) s in
  Normal tt
    (if existsb is_reset (filter (is_due t') (timers (clock s)))
     then set_timeoutRef None s1 else s1).
Proof.
  unfold advance, bind, get, modify. now rewrite fire_all_closed.
Qed.

End Steps.

(** Name every field of a state, for proofs by evaluation. *)
Ltac break_state s :=
  destruct s as [pr [ip htv im nc ifs] [ref cr plr] [mt nl pls pc st]
                 [ua w con moz fse mux] [nw nx ts] cl uh].

Section Detector.

Import Player.

Lemma filter_comm {A : Type} (f g : A -> bool) (l : list A) :
  filter f (filter g l) = filter g (filter f l).
Proof.
  induction l as [|a l IH]; [reflexivity|]. simpl.
  destruct (g a) eqn:G, (f a) eqn:F; simpl; rewrite ?G, ?F, IH; reflexivity.
Qed.

Lemma existsb_filter {A : Type} (f g : A -> bool) (l : list A) :
  existsb f (filter g l) = existsb g (filter f l).
Proof.
  induction l as [|a l IH]; [reflexivity|]. simpl.
  destruct (g a) eqn:G, (f a) eqn:F; simpl; rewrite ?G, ?F, IH; reflexivity.
Qed.

Ltac step_frame T :=
  cbv -[filter is_reset Nat.eqb negb tid];
  (split; [reflexivity|]; split;
     [ first [ exists (fun _ => true); apply T
             | eexists; apply filter_comm ]
     | intros H;
       first [ discriminate H | split; [ assumption || reflexivity
                                       | reflexivity ] ] ]).

Lemma commit_refs (s : State) : refs (commit s) = refs s.
Proof. unfold commit. now destruct (playerListeners (effects s)). Qed.

Lemma commit_clock (s : State) : clock (commit s) = clock s.
Proof. unfold commit. now destruct (playerListeners (effects s)). Qed.

Lemma commit_calls (s : State) : calls (commit s) = calls s.
Proof. unfold commit. now destruct (playerListeners (effects s)). Qed.

Lemma commit_mounted (s : State) :
  mounted (effects (commit s)) = mounted (effects s).
Proof. unfold commit. now destruct (playerListeners (effects s)). Qed.

(** The detector's part of a step on [Advance]. *)
Lemma advance_detector (ms : nat) (s : State) :
  let t' := now (clock s) + ms in
  let s' := step s (Advance ms) in
  pending_resets s' = filter (fun t => negb (is_due t' t)) (pending_resets s)
  /\ doubleClickTimeoutRef (refs s') =
       (if existsb (is_due t') (pending_resets s) then None
        else doubleClickTimeoutRef (refs s))
  /\ containerRef (refs s') = containerRef (refs s)
  /\ effects s' = effects (commit s)
  /\ calls s' = calls s
  /\ unhandled s' = unhandled s
  /\ now (clock s') = t'
  /\ browser s' = browser s
  /\ nextTimer (clock s') = nextTimer (clock s)
  /\ hooks s' = hooks s
  /\ props s' = props s.
Proof.
  intros t' s'. subst s'. unfold step, pending_resets.
  change (dispatch (Advance ms) s) with (advance ms s).
  rewrite advance_closed. fold t'. cbv zeta.
  rewrite (existsb_filter is_reset (is_due t')).
  rewrite <- (filter_comm is_reset).
  destruct (existsb (is_due t') (filter is_reset (timers (clock s))));
    break_state s; unfold commit; simpl; destruct pls; simpl;
    repeat split; reflexivity.
Qed.

(** The three ways [handlePlayerDoubleClick] can go. *)
Lemma handle_detached (o : FsOutcome) (s : State) :
  containerRef (refs s) = false ->
  handlePlayerDoubleClick o s = Normal tt s.
Proof.
  intros H. unfold handlePlayerDoubleClick, bind, get. now rewrite H.
Qed.

Lemma handle_arm (o : FsOutcome) (s : State) :
  containerRef (refs s) = true ->
  doubleClickTimeoutRef (refs s) = None ->
  handlePlayerDoubleClick o s = Normal tt (arm s).
Proof.
  intros Hc Hr. unfold handlePlayerDoubleClick, bind, get.
  rewrite Hc, Hr. reflexivity.
Qed.

Lemma handle_pair (o : FsOutcome) (id : nat) (s : State) :
  containerRef (refs s) = true ->
  doubleClickTimeoutRef (refs s) = Some id ->
  handlePlayerDoubleClick o s = Normal tt (pair o id s).
Proof.
  intros Hc Hr. unfold handlePlayerDoubleClick, bind, get.
  rewrite Hc, Hr. simpl negb. cbv iota. unfold pair.
  destruct (fullscreenElement (browser s)) eqn:F; destruct o; reflexivity.
Qed.

Lemma step_dblclick (o : FsOutcome) (s : State) :
  step s (DblClick o) =
  commit
    (if mounted (effects s) && containerRef (refs s) then
       match doubleClickTimeoutRef (refs s) with
       | None => arm s
       | Some id => pair o id s
       end
     else s).
Proof.
  unfold step. f_equal. unfold dispatch, bind, get.
  destruct (mounted (effects s)); [|reflexivity]. simpl andb.
  destruct (containerRef (refs s)) eqn:Hc.
  - destruct (doubleClickTimeoutRef (refs s)) as [id|] eqn:Hr.
    + now rewrite (handle_pair o id s Hc Hr).
    + now rewrite (handle_arm o s Hc Hr).
  - now rewrite (handle_detached o s Hc).
Qed.

Lemma pair_calls (o : FsOutcome) (id : nat) (s : State) :
  calls (pair o id s) =
  calls s ++ ClearTimeout id :: toggle_calls (fullscreenElement (browser s)) o.
Proof.
  unfold pair, toggle_calls.
  destruct o; simpl; rewrite <- ?app_assoc; reflexivity.
Qed.

Lemma pair_frame (o : FsOutcome) (id : nat) (s : State) :
  refs (pair o id s) = refs (set_timeoutRef None s)
  /\ effects (pair o id s) = effects s
  /\ browser (pair o id s) = browser s
  /\ hooks (pair o id s) = hooks s
  /\ props (pair o id s) = props s
  /\ unhandled (pair o id s) = unhandled s
  /\ now (clock (pair o id s)) = now (clock s)
  /\ nextTimer (clock (pair o id s)) = nextTimer (clock s)
  /\ timers (clock (pair o id s)) =
       filter (fun t => negb (tid t =? id)) (timers (clock s)).
Proof.
  unfold pair, toggle_calls. destruct o; simpl; repeat split; reflexivity.
Qed.

Lemma arm_pending (s : State) :
  pending_resets (arm s) =
  pending_resets s
  ++ [{| tid := nextTimer (clock s); due := now (clock s) + 300;
         kind := DoubleClickReset |}].
Proof.
  unfold pending_resets, arm. simpl. now rewrite filter_app.
Qed.

Lemma pair_pending (o : FsOutcome) (id : nat) (s : State) :
  pending_resets (pair o id s) =
  filter (fun t => negb (tid t =? id)) (pending_resets s).
Proof.
  unfold pending_resets.
  destruct (pair_frame o id s) as (_ & _ & _ & _ & _ & _ & _ & _ & ->).
  apply filter_comm.
Qed.

(** Every other event leaves the handle alone and can only remove timers
    (unmounting clears the script-check timer). *)
Lemma step_other_detector (s : State) (e : Event) :
  match e with DblClick _ | Advance _ => False | _ => True end ->
  doubleClickTimeoutRef (refs (step s e)) = doubleClickTimeoutRef (refs s)
  /\ (exists f, pending_resets (step s e) = filter f (pending_resets s))
  /\ (mounted (effects (step s e)) = true ->
      mounted (effects s) = true
      /\ containerRef (refs (step s e)) = containerRef (refs s)).
Proof.
  assert (T : forall l : list Timer, l = filter (fun _ => true) l).
  { induction l as [|a l IH]; simpl; congruence. }
  intros He. unfold step. rewrite commit_refs, commit_mounted.
  unfold pending_resets. rewrite commit_clock.
  break_state s. destruct pr as [odc ovt].
  destruct e as [w'|c'|el| |  |  |d|d| |]; try contradiction.
  - destruct mt; step_frame T.
  - destruct nl, con, moz; step_frame T.
  - destruct mt; step_frame T.
  - destruct pls, pc, ovt; step_frame T.
  - destruct pls; step_frame T.
  - destruct pls, odc, d as [[|d]|]; step_frame T.
  - destruct pls, odc, d as [[|d]|]; step_frame T.
  - destruct mt, st; step_frame T.
Qed.

Lemma at_most_one_filter (f : Timer -> bool) (l : list Timer)
    (r : option nat) :
  match l with [] => True | [t] => r = Some (tid t) | _ => False end ->
  match filter f l with
  | [] => True
  | [t] => r = Some (tid t)
  | _ => False
  end.
Proof.
  destruct l as [|a [|b l]]; simpl; try tauto.
  destruct (f a); simpl; auto.
Qed.

Lemma commit_pending (s : State) :
  pending_resets (commit s) = pending_resets s.
Proof. unfold pending_resets. now rewrite commit_clock. Qed.

(** [detector_ok] is an invariant of the event loop. *)
Lemma step_detector_ok (s : State) (e : Event) :
  detector_ok s -> detector_ok (step s e).
Proof.
  intros [J1 J2].
  assert (Other : match e with DblClick _ | Advance _ => False | _ => True end
                  -> detector_ok (step s e)).
  { intros He.
    destruct (step_other_detector s e He) as (Hr & (f & Hp) & Hm).
    split.
    - rewrite Hp, Hr. now apply at_most_one_filter.
    - intros M. destruct (Hm M) as [M' ->]. auto. }
  destruct e as [w'|c'|el|o|  |  |d|d|ms|]; try (apply Other; exact I).
  - rewrite step_dblclick. unfold detector_ok.
    rewrite commit_pending, commit_refs, commit_mounted.
    destruct (mounted (effects s) && containerRef (refs s)) eqn:MC;
      [|now split].
    apply andb_true_iff in MC as [M C].
    destruct (doubleClickTimeoutRef (refs s)) as [id|] eqn:R.
    + rewrite pair_pending.
      destruct (pair_frame o id s) as (-> & -> & _). split; [|auto].
      destruct (pending_resets s) as [|t [|t' l]]; simpl; try tauto.
      injection J1 as ->. now rewrite Nat.eqb_refl.
    + rewrite arm_pending. split; [|auto].
      destruct (pending_resets s) as [|t [|t' l]]; simpl;
        [reflexivity|discriminate|tauto].
  - destruct (advance_detector ms s) as (Hp & Hr & Hc & He & _).
    cbv zeta in *. split.
    + rewrite Hp, Hr.
      destruct (pending_resets s) as [|t [|t' l]]; simpl; try tauto.
      destruct (is_due (now (clock s) + ms) t); simpl; auto.
    + rewrite He, Hc, commit_mounted. exact J2.
Qed.

Lemma mount_detector_ok (p : Props) (b : Browser) : detector_ok (mount p b).
Proof.
  destruct b as [ua w [c|] [m|] fs [|]]; split; simpl; auto.
Qed.

Lemma run_detector_ok (tr : list Event) (s : State) :
  detector_ok s -> detector_ok (run tr s).
Proof.
  revert s. induction tr as [|e tr IH]; intros s H; [exact H|].
  simpl. apply IH. now apply step_detector_ok.
Qed.

Lemma reachable_detector_ok (s : State) : reachable s -> detector_ok s.
Proof.
  intros (p & b & tr & ->). apply run_detector_ok, mount_detector_ok.
Qed.

Lemma run_app (tr tr' : list Event) (s : State) :
  run (tr ++ tr') s = run tr' (run tr s).
Proof. apply fold_left_app. Qed.

Lemma reachable_run (tr : list Event) (s : State) :
  reachable s -> reachable (run tr s).
Proof.
  intros (p & b & tr0 & ->). exists p, b, (tr0 ++ tr).
  now rewrite run_app.
Qed.

(** An idle detector in a reachable state has no timer pending. *)
Lemma idle_no_pending (s : State) :
  reachable s -> idle s = true -> pending_resets s = [].
Proof.
  intros R I. destruct (reachable_detector_ok s R) as [J _].
  unfold idle in I.
  destruct (pending_resets s) as [|t [|t' l]]; [reflexivity| |tauto].
  rewrite J in I. discriminate.
Qed.

Lemma commit_browser (s : State) : browser (commit s) = browser s.
Proof. unfold commit. now destruct (playerListeners (effects s)). Qed.

Lemma commit_unhandled (s : State) : unhandled (commit s) = unhandled s.
Proof. unfold commit. now destruct (playerListeners (effects s)). Qed.

Create Rewrite HintDb commit.

#[local] Hint Rewrite commit_pending commit_refs commit_calls commit_mounted
  commit_browser commit_unhandled commit_clock : commit.

(** One double click on an idle, mounted detector. *)
Lemma first_click (s : State) (o : FsOutcome) :
  reachable s -> mounted (effects s) = true -> idle s = true ->
  let s1 := step s (DblClick o) in
  let id := nextTimer (clock s) in
  doubleClickTimeoutRef (refs s1) = Some id
  /\ pending_resets s1 =
       [{| tid := id; due := now (clock s) + 300; kind := DoubleClickReset |}]
  /\ calls s1 = calls s ++ [SetTimeout id 300]
  /\ mounted (effects s1) = true
  /\ containerRef (refs s1) = true
  /\ browser s1 = browser s
  /\ unhandled s1 = unhandled s
  /\ now (clock s1) = now (clock s)
  /\ nextTimer (clock s1) = S id
  /\ completes_pair s = false.
Proof.
  intros R M I s1 id. subst s1.
  pose proof (idle_no_pending s R I) as P.
  destruct (reachable_detector_ok s R) as [_ C]. specialize (C M).
  rewrite step_dblclick, M, C. simpl andb. cbv iota.
  unfold idle in I.
  destruct (doubleClickTimeoutRef (refs s)) eqn:Rf; [discriminate|].
  autorewrite with commit. rewrite arm_pending, P.
  unfold completes_pair, idle. rewrite Rf, M, C.
  repeat split; try reflexivity; assumption.
Qed.

(** A double click that finds the handle set, on a mounted player. *)
Lemma pairing_click (s : State) (o : FsOutcome) (id : nat) :
  mounted (effects s) = true -> containerRef (refs s) = true ->
  doubleClickTimeoutRef (refs s) = Some id ->
  let s1 := step s (DblClick o) in
  idle s1 = true
  /\ pending_resets s1 =
       filter (fun t => negb (tid t =? id)) (pending_resets s)
  /\ calls s1 =
       calls s
       ++ ClearTimeout id :: toggle_calls (fullscreenElement (browser s)) o
  /\ mounted (effects s1) = true
  /\ containerRef (refs s1) = true
  /\ browser s1 = browser s
  /\ unhandled s1 = unhandled s
  /\ now (clock s1) = now (clock s)
  /\ nextTimer (clock s1) = nextTimer (clock s)
  /\ completes_pair s = true.
Proof.
  intros M C Rf s1. subst s1.
  rewrite step_dblclick, M, C, Rf. simpl andb. cbv iota.
  unfold idle, completes_pair, idle.
  autorewrite with commit. rewrite pair_pending, pair_calls.
  destruct (pair_frame o id s) as (-> & -> & -> & _ & _ & -> & -> & -> & _).
  simpl. rewrite Rf, M, C. repeat split; reflexivity.
Qed.

End Detector.

(* ================================================================== *)
(** * What a step emits *)
(* ================================================================== *)

Section Log.

Import Player.

Ltac eval_step :=
  cbv -[filter is_reset Nat.eqb negb tid app orb];
  rewrite <- ?app_assoc, ?app_nil_r, ?orb_false_r, ?orb_true_r;
  repeat split; reflexivity.


(** The effect of one step on what the statements observe: the calls it
    appends, the unhandled rejections, [hasTrackedView], the props and the
    player listeners. *)
Lemma step_log (s : State) (e : Event) :
  calls (step s e) = calls s ++ emitted s e
  /\ unhandled (step s e) = unhandled s
  /\ hasTrackedView (hooks (step s e)) =
       hasTrackedView (hooks s)
       || (match e with Play => notifies s | _ => false end)
  /\ props (step s e) = props s
  /\ playerListeners (effects (step s e)) =
       (match e with
        | Unmount => negb (mounted (effects s))
        | _ => true
        end && playerListeners (effects s)).
Proof.
  destruct e as [w'|c'|el|o|  |  |d|d|ms|].
  - break_state s; destruct pls, mt; eval_step.
  - break_state s; destruct pls, nl, con, moz; eval_step.
  - break_state s; destruct pls, mt; eval_step.
  - rewrite step_dblclick. unfold emitted.
    destruct (mounted (effects s) && containerRef (refs s)).
    + destruct (doubleClickTimeoutRef (refs s)) as [id|].
      * break_state s; destruct pls, o; eval_step.
      * break_state s; destruct pls; eval_step.
    + break_state s; destruct pls; eval_step.
  - break_state s; destruct pr as [odc ovt]; destruct pls, pc, ovt, htv;
      eval_step.
  - break_state s; destruct pls; eval_step.
  - break_state s; destruct pr as [odc ovt];
      destruct pls, odc, d as [[|d]|]; eval_step.
  - break_state s; destruct pr as [odc ovt];
      destruct pls, odc, d as [[|d]|]; eval_step.
  - destruct (advance_detector ms s)
      as (_ & _ & _ & He & Hl & Hu & _ & _ & _ & Hh & Hp).
    cbv zeta in *. rewrite Hl, Hu, Hh, Hp, He. simpl emitted.
    rewrite app_nil_r, orb_false_r.
    unfold commit. destruct (playerListeners (effects s)) eqn:L;
      simpl; rewrite ?L; repeat split; reflexivity.
  - break_state s; destruct pls, mt, st; eval_step.
Qed.

(** After a step, the registered [handlePlay] holds the current
    [hasTrackedView]. *)
Lemma step_closure (s : State) (e : Event) :
  playerListeners (effects (step s e)) = true ->
  playClosure (effects (step s e)) = hasTrackedView (hooks (step s e)).
Proof.
  unfold step. generalize (final (dispatch e s)). intros s'.
  unfold commit. destruct (playerListeners (effects s')) eqn:L.
  - reflexivity.
  - rewrite L. discriminate.
Qed.


Lemma run_props (tr : list Event) (s : State) :
  props (run tr s) = props s.
Proof.
  revert s. induction tr as [|e tr IH]; intros s; [reflexivity|].
  simpl. rewrite IH. apply step_log.
Qed.

End Log.

(* ================================================================== *)
(** * The double-click detector *)
(* ================================================================== *)

Section DetectorClaims.

Import Player.

Lemma step_advance_frame (s : State) (ms : nat) :
  mounted (effects (step s (Advance ms))) = mounted (effects s)
  /\ containerRef (refs (step s (Advance ms))) = containerRef (refs s)
  /\ calls (step s (Advance ms)) = calls s
  /\ browser (step s (Advance ms)) = browser s
  /\ unhandled (step s (Advance ms)) = unhandled s
  /\ nextTimer (clock (step s (Advance ms))) = nextTimer (clock s).
Proof.
  destruct (advance_detector ms s)
    as (_ & _ & Hc & He & Hl & Hu & _ & Hb & Hn & _).
  cbv zeta in *. rewrite He, commit_mounted. repeat split; assumption.
Qed.





End DetectorClaims.

(* ================================================================== *)
(** * The view notification *)
(* ================================================================== *)

Section ViewTracking.

Import Player.

Lemma emitted_views (s : State) (e : Event) :
  count is_view_tracked (emitted s e) =
  match e with
  | Play => if notifies s then 1 else 0
  | _ => 0
  end.
Proof.
  destruct e as [w'|c'|el|o|  |  |d|d|ms|]; simpl; try reflexivity.
  - destruct (_ && _); [|reflexivity].
    destruct (doubleClickTimeoutRef (refs s)); [|reflexivity].
    destruct o, (fullscreenElement (browser s)); reflexivity.
  - destruct (notifies s); reflexivity.
  - destruct (_ && _); [|reflexivity]. destruct d as [[|d]|]; reflexivity.
  - destruct (_ && _); [|reflexivity]. destruct d as [[|d]|]; reflexivity.
  - destruct (mounted (effects s)); [|reflexivity].
    destruct (scriptTimer (effects s)); reflexivity.
Qed.

Lemma step_views (s : State) (e : Event) :
  views (step s e) =
  views s + match e with
            | Play => if notifies s then 1 else 0
            | _ => 0
            end.
Proof.
  unfold views. destruct (step_log s e) as (-> & _).
  now rewrite count_app, emitted_views.
Qed.

Lemma step_view_ok (s : State) (e : Event) :
  view_ok s -> view_ok (step s e).
Proof.
  intros [V C]. split; [|apply step_closure].
  rewrite step_views.
  destruct (step_log s e) as (_ & _ & -> & _).
  destruct e; rewrite ?orb_false_r, ?Nat.add_0_r; try exact V.
  destruct (notifies s) eqn:N; rewrite ?orb_false_r, ?Nat.add_0_r;
    [|exact V].
  unfold notifies in N.
  apply andb_true_iff in N as [N _]. apply andb_true_iff in N as [L P].
  rewrite <- (C L) in V |- *. apply negb_true_iff in P.
  rewrite P in V |- *. rewrite V. reflexivity.
Qed.

Lemma mount_view (p : Props) (b : Browser) :
  view_ok (mount p b)
  /\ views (mount p b) = 0
  /\ hasTrackedView (hooks (mount p b)) = false
  /\ playerListeners (effects (mount p b)) = true
  /\ props (mount p b) = p.
Proof.
  destruct b as [ua w [c|] [m|] fs [|]]; repeat split; reflexivity.
Qed.

Lemma run_view_ok (tr : list Event) (s : State) :
  view_ok s -> view_ok (run tr s).
Proof.
  revert s. induction tr as [|e tr IH]; intros s H; [exact H|].
  simpl. apply IH. now apply step_view_ok.
Qed.




End ViewTracking.

(* ================================================================== *)
(** * The fullscreen toggle *)
(* ================================================================== *)

Section Toggle.

Import Player.

Lemma emitted_fullscreen (s : State) (e : Event) :
  count is_fullscreen_call (emitted s e) =
  match e with
  | DblClick o => if completes_pair s && supported o then 1 else 0
  | _ => 0
  end.
Proof.
  destruct e as [w'|c'|el|o|  |  |d|d|ms|]; simpl; try reflexivity.
  - unfold completes_pair, idle.
    destruct (mounted (effects s) && containerRef (refs s));
      [|reflexivity].
    destruct (doubleClickTimeoutRef (refs s)); [|reflexivity].
    destruct o, (fullscreenElement (browser s)); reflexivity.
  - destruct (notifies s); reflexivity.
  - destruct (_ && _); [|reflexivity]. destruct d as [[|d]|]; reflexivity.
  - destruct (_ && _); [|reflexivity]. destruct d as [[|d]|]; reflexivity.
  - destruct (mounted (effects s)); [|reflexivity].
    destruct (scriptTimer (effects s)); reflexivity.
Qed.

(** Along any trace the fullscreen calls never outnumber the completed
    pairs, and match them when the browser has the methods. *)
Lemma toggles_per_pair (tr : list Event) (s : State) :
  count is_fullscreen_call (calls (run tr s))
  <= count is_fullscreen_call (calls s) + doubleTaps tr s
  /\ ((forall o, In (DblClick o) tr -> supported o = true) ->
      count is_fullscreen_call (calls (run tr s))
      = count is_fullscreen_call (calls s) + doubleTaps tr s).
Proof.
  revert s. induction tr as [|e tr IH]; intros s.
  - simpl. split; [lia|intros _; lia].
  - simpl run. simpl doubleTaps.
    destruct (IH (step s e)) as [Hle Heq].
    destruct (step_log s e) as (Hc & _).
    rewrite Hc, count_app, emitted_fullscreen in Hle, Heq.
    split.
    + destruct e as [ | | |o| | | | | | ]; try lia.
      destruct (completes_pair s), (supported o); simpl in *; lia.
    + intros Hs. rewrite Heq by (intros o Ho; apply Hs; now right).
      destruct e as [ | | |o| | | | | | ]; try lia.
      rewrite (Hs o (or_introl eq_refl)).
      destruct (completes_pair s); simpl; lia.
Qed.



End Toggle.

(* ================================================================== *)
(** * Timers at unmount *)
(* ================================================================== *)

Section Unmounting.

Import Player.

(** C8, at the failing input.  A player is double-clicked once and
    unmounted 100 ms later.  The cleanups clear the script-check timer (when
    there is one) but not the detector's: its timer is still queued after
    the unmount, with the container detached, and 200 ms later its callback
    runs.  No [clearTimeout] is ever called on it. *)
Theorem double_click_timer_survives_unmount (p : Props) (b : Browser)
    (o : FsOutcome) :
  let id := if muxPlayerDefined b then 1 else 2 in
  let s := run [DblClick o; Advance 100; Unmount] (mount p b) in
  let s' := step s (Advance 200) in
  mounted (effects s) = false
  /\ containerRef (refs s) = false
  /\ doubleClickTimeoutRef (refs s) = Some id
  /\ pending_resets s =
       [{| tid := id; due := 300; kind := DoubleClickReset |}]
  /\ calls s =
       (if muxPlayerDefined b then [] else [SetTimeout 1 100])
       ++ [SetTimeout id 300]
       ++ (if muxPlayerDefined b then [] else [ClearTimeout 1])
  /\ pending_resets s' = []
  /\ doubleClickTimeoutRef (refs s') = None
  /\ calls s' = calls s.
Proof.
  destruct b as [ua w [c|] [m|] fs [|]]; cbv zeta;
    repeat split; reflexivity.
Qed.

End Unmounting.

(* ================================================================== *)
(** * The duration label of the modal *)
(* ================================================================== *)

Section DurationLabel.

Lemma hms_decompose (n : nat) :
  3600 * (n / 3600) + 60 * ((n mod 3600) / 60) + n mod 60 = n.
Proof.
  pose proof (Nat.div_mod_eq n 3600) as H1.
  pose proof (Nat.div_mod_eq (n mod 3600) 60) as H2.
  pose proof (Nat.div_mod_eq n 60) as H3.
  pose proof (Nat.mod_upper_bound n 60 ltac:(lia)).
  pose proof (Nat.mod_upper_bound (n mod 3600) 60 ltac:(lia)).
  lia.
Qed.

Lemma hms_bounds (n : nat) : (n mod 3600) / 60 < 60 /\ n mod 60 < 60.
Proof.
  split.
  - apply Nat.Div0.div_lt_upper_bound. apply Nat.mod_upper_bound. lia.
  - apply Nat.mod_upper_bound. lia.
Qed.

(** Below 60, padding the decimal digits gives exactly two digits, which
    read back as the number and hold no colon. *)
Lemma padStart2_two_digits (k : nat) :
  k < 60 ->
  Modal.padStart2 (Modal.decimal k) = Modal.two_digits k
  /\ Modal.parse_nat (Modal.two_digits k) = Some k
  /\ Modal.no_colon (Modal.two_digits k) = true.
Proof.
  intros Hk.
  assert (All : forallb (fun k =>
                  String.eqb (Modal.padStart2 (Modal.decimal k))
                    (Modal.two_digits k)
                  && match Modal.parse_nat (Modal.two_digits k) with
                     | Some k' => k' =? k
                     | None => false
                     end
                  && Modal.no_colon (Modal.two_digits k)) (seq 0 60) = true)
    by (vm_compute; reflexivity).
  rewrite forallb_forall in All.
  specialize (All k (proj2 (in_seq 60 0 k) (conj (Nat.le_0_l k) Hk))).
  apply andb_true_iff in All as [All N].
  apply andb_true_iff in All as [E P].
  apply String.eqb_eq in E.
  destruct (Modal.parse_nat (Modal.two_digits k)) as [k'|]; [|discriminate].
  apply Nat.eqb_eq in P. subst k'. auto.
Qed.

Lemma digits_no_colon (d : Decimal.uint) :
  Modal.no_colon (NilEmpty.string_of_uint d) = true.
Proof. induction d; simpl; auto. Qed.

Lemma decimal_no_colon (n : nat) : Modal.no_colon (Modal.decimal n) = true.
Proof.
  unfold Modal.decimal, NilZero.string_of_uint.
  destruct (Nat.to_uint n) eqn:E; try reflexivity;
    rewrite <- E; apply digits_no_colon.
Qed.

Lemma decimal_parse (n : nat) : Modal.parse_nat (Modal.decimal n) = Some n.
Proof.
  unfold Modal.decimal, Modal.parse_nat, NilZero.string_of_uint.
  pose proof (Unsigned.of_to n) as E.
  destruct (Nat.to_uint n) eqn:D;
    try (rewrite NilEmpty.usu; cbn [option_map]; now rewrite E).
  simpl in *. now rewrite <- E.
Qed.

Lemma fields_single (a : string) :
  Modal.no_colon a = true -> Modal.fields a = [a].
Proof.
  induction a as [|c a IH]; simpl; [reflexivity|].
  intros H. apply andb_true_iff in H as [Hc Ha].
  apply negb_true_iff in Hc. rewrite Hc, (IH Ha). reflexivity.
Qed.

Lemma fields_app (a b : string) :
  Modal.no_colon a = true ->
  Modal.fields (a ++ String ":" b) = a :: Modal.fields b.
Proof.
  induction a as [|c a IH]; simpl; [reflexivity|].
  intros H. apply andb_true_iff in H as [Hc Ha].
  apply negb_true_iff in Hc. rewrite Hc, (IH Ha). reflexivity.
Qed.

(** The label of a whole number of seconds: minutes and seconds below an
    hour, hours, minutes and seconds from one hour on; every field after
    the first has exactly two digits. *)
Lemma formatDuration_fields (n : nat) :
  Modal.formatDuration n =
  if n <? 3600 then
    (Modal.decimal (n / 60) ++ ":" ++ Modal.two_digits (n mod 60))%string
  else
    (Modal.decimal (n / 3600) ++ ":"
     ++ Modal.two_digits ((n mod 3600) / 60) ++ ":"
     ++ Modal.two_digits (n mod 60))%string.
Proof.
  unfold Modal.formatDuration. cbv zeta.
  destruct (hms_bounds n) as [Hm Hs].
  destruct (padStart2_two_digits _ Hm) as (-> & _).
  destruct (padStart2_two_digits _ Hs) as (-> & _).
  destruct (n <? 3600) eqn:L.
  - apply Nat.ltb_lt in L. rewrite (Nat.div_small n 3600 L).
    rewrite (Nat.mod_small n 3600 L). reflexivity.
  - apply Nat.ltb_ge in L.
    assert (H : 0 < n / 3600)
      by (apply Nat.div_str_pos; lia).
    apply Nat.ltb_lt in H. now rewrite H.
Qed.

Lemma parse_formatDuration (n : nat) :
  Modal.parseDuration (Modal.formatDuration n) = Some n.
Proof.
  rewrite formatDuration_fields. unfold Modal.parseDuration.
  destruct (hms_bounds n) as [Hm Hs].
  destruct (padStart2_two_digits _ Hm) as (_ & Pm & Cm).
  destruct (padStart2_two_digits _ Hs) as (_ & Ps & Cs).
  destruct (n <? 3600) eqn:L.
  - apply Nat.ltb_lt in L. cbn [String.append].
    rewrite (fields_app _ _ (decimal_no_colon _)), (fields_single _ Cs).
    cbn [map]. rewrite decimal_parse, Ps. f_equal.
    pose proof (hms_decompose n) as E.
    rewrite (Nat.div_small n 3600 L), (Nat.mod_small n 3600 L) in E. lia.
  - cbn [String.append].
    rewrite (fields_app _ _ (decimal_no_colon _)), (fields_app _ _ Cm),
      (fields_single _ Cs).
    cbn [map]. rewrite decimal_parse, Pm, Ps. f_equal.
    apply hms_decompose.
Qed.

End DurationLabel.

(** X1.  Below one hour the label of a whole number of seconds is the
    minutes, a colon and two digits of seconds; from one hour on it is the
    hours, two digits of minutes and two digits of seconds.  It has two
    fields in the first case and three in the second. *)
Theorem duration_label_shape (n : nat) :
  Modal.formatDuration n =
    (if n <? 3600 then
       (Modal.decimal (n / 60) ++ ":" ++ Modal.two_digits (n mod 60))%string
     else
       (Modal.decimal (n / 3600) ++ ":"
        ++ Modal.two_digits ((n mod 3600) / 60) ++ ":"
        ++ Modal.two_digits (n mod 60))%string)
  /\ List.length (Modal.fields (Modal.formatDuration n)) =
       (if n <? 3600 then 2 else 3)
  /\ String.length (Modal.two_digits ((n mod 3600) / 60)) = 2
  /\ String.length (Modal.two_digits (n mod 60)) = 2.
Proof.
  split; [apply formatDuration_fields|]. split; [|split; reflexivity].
  rewrite formatDuration_fields.
  destruct (hms_bounds n) as [Hm Hs].
  destruct (padStart2_two_digits _ Hm) as (_ & _ & Cm).
  destruct (padStart2_two_digits _ Hs) as (_ & _ & Cs).
  destruct (n <? 3600); cbn [String.append].
  - now rewrite (fields_app _ _ (decimal_no_colon _)), (fields_single _ Cs).
  - now rewrite (fields_app _ _ (decimal_no_colon _)), (fields_app _ _ Cm),
      (fields_single _ Cs).
Qed.

(** X2.  Two whole numbers of seconds with the same label are equal:
    different durations never show the same label. *)
Theorem duration_labels_distinct (a b : nat) :
  Modal.formatDuration a = Modal.formatDuration b -> a = b.
Proof.
  intros H.
  assert (E : Some a = Some b)
    by now rewrite <- (parse_formatDuration a), <- (parse_formatDuration b), H.
  now inversion E.
Qed.

(** X2 on one hour, two minutes and three seconds, written in two ways. *)
Lemma duration_labels_distinct_example : 3600 + 123 = 3723.
Proof.
  apply (duration_labels_distinct (3600 + 123) 3723).
  vm_compute. reflexivity.
Defined.

(* ================================================================== *)
(** * More on the identifier extraction *)
(* ================================================================== *)

Section PlaybackId.

Lemma all_alnum_app (a b : string) :
  Str.all_alnum (a ++ b) = Str.all_alnum a && Str.all_alnum b.
Proof.
  induction a as [|c a IH]; simpl; [reflexivity|].
  now rewrite IH, andb_assoc.
Qed.

(** A string of letters and digits contains no text that has another
    character. *)
Lemma alnum_excludes (s p : string) :
  Str.all_alnum s = true -> Str.all_alnum p = false ->
  Str.includes s p = false.
Proof.
  intros Hs Hp. destruct (Str.includes s p) eqn:E; [|reflexivity].
  apply includes_contains in E. destruct E as (pre & post & ->).
  rewrite !all_alnum_app in Hs.
  apply andb_true_iff in Hs as [_ Hs]. apply andb_true_iff in Hs as [Hs _].
  congruence.
Qed.

Lemma mux_match_alnum (url g : string) :
  Modal.mux_match url = Some g ->
  Str.all_alnum g = true /\ Str.is_empty g = false.
Proof.
  intros H. apply mux_match_first in H.
  destruct H as (pre & post & (_ & Hne & Ha & _) & _). now split.
Qed.

(** The result is letters and digits only (possibly none), or the input
    itself when that holds neither the host nor a scheme delimiter. *)
Lemma getPlaybackId_cases (url : string) :
  Str.all_alnum (Modal.getPlaybackId url) = true
  \/ (Modal.getPlaybackId url = url
      /\ Str.includes url "stream.mux.com" = false
      /\ Str.includes url "://" = false).
Proof.
  unfold Modal.getPlaybackId.
  destruct (Str.is_empty url); [now left|].
  destruct (Str.includes url "stream.mux.com") eqn:H.
  - left. destruct (Modal.mux_match url) as [g|] eqn:M; [|reflexivity].
    now apply mux_match_alnum in M.
  - destruct (Str.includes url "://") eqn:S; [now left|]. now right.
Qed.

(** X3.  Extracting from an extracted identifier changes nothing: the
    result of [getPlaybackId] is a fixed point of [getPlaybackId]. *)
Theorem getPlaybackId_idempotent (url : string) :
  Modal.getPlaybackId (Modal.getPlaybackId url) = Modal.getPlaybackId url.
Proof.
  destruct (getPlaybackId_cases url) as [A|(E & H & S)].
  - generalize dependent (Modal.getPlaybackId url). intros g A.
    unfold Modal.getPlaybackId.
    destruct (Str.is_empty g) eqn:Em; [now destruct g|].
    rewrite (alnum_excludes g "stream.mux.com" A eq_refl).
    now rewrite (alnum_excludes g "://" A eq_refl).
  - now rewrite E.
Qed.

(** X4.  Whatever the content URL, the identifier handed to the player
    never holds a scheme delimiter [://] and never holds the host name
    [stream.mux.com]: it is a run of letters and digits, or the whole input
    when the input has neither. *)
Theorem playback_id_is_never_a_url (url : string) :
  Str.includes (Modal.getPlaybackId url) "://" = false
  /\ Str.includes (Modal.getPlaybackId url) "stream.mux.com" = false
  /\ (Str.all_alnum (Modal.getPlaybackId url) = true
      \/ Modal.getPlaybackId url = url).
Proof.
  destruct (getPlaybackId_cases url) as [A|(E & H & S)].
  - repeat split; [| |now left]; now apply alnum_excludes.
  - rewrite E. repeat split; auto.
Qed.

End PlaybackId.

(* ================================================================== *)
(** * More on the configuration selector *)
(* ================================================================== *)

Section Selector.

Lemma unrecognised_eqb (nc : string) :
  ~ In nc recognised ->
  String.eqb nc "slow-2g" = false /\ String.eqb nc "2g" = false
  /\ String.eqb nc "3g" = false /\ String.eqb nc "4g" = false.
Proof.
  intros H. repeat split; apply String.eqb_neq; intros ->; apply H;
    simpl; auto.
Qed.

(** X5.  For every network value, recognised or not, the resolution cap is
    one of 480p, 720p and 1080p; the cap on desktop is never lower than on
    mobile; the device matters only for values other than 'slow-2g', '2g',
    '3g' and '4g', all of which are treated as 'unknown'; and along
    slow-2g, 2g, 3g, 4g the cap never decreases. *)
Theorem resolution_cap_properties :
  (forall nc m, In (getOptimalMaxResolution nc m) ["480p"; "720p"; "1080p"])
  /\ (forall nc,
        lines (getOptimalMaxResolution nc true)
        <= lines (getOptimalMaxResolution nc false))
  /\ (forall nc, In nc recognised ->
        getOptimalMaxResolution nc true = getOptimalMaxResolution nc false)
  /\ (forall nc m, ~ In nc recognised ->
        getOptimalMaxResolution nc m = getOptimalMaxResolution "unknown" m)
  /\ (forall m,
        lines (getOptimalMaxResolution "slow-2g" m)
        <= lines (getOptimalMaxResolution "2g" m)
        /\ lines (getOptimalMaxResolution "2g" m)
           <= lines (getOptimalMaxResolution "3g" m)
        /\ lines (getOptimalMaxResolution "3g" m)
           <= lines (getOptimalMaxResolution "4g" m)).
Proof.
  repeat split.
  - intros nc m. unfold getOptimalMaxResolution.
    repeat (destruct (String.eqb nc _); [simpl; tauto|]).
    destruct m; simpl; tauto.
  - intros nc. unfold getOptimalMaxResolution.
    repeat (destruct (String.eqb nc _); [apply le_n|]).
    apply Nat.leb_le. vm_compute. reflexivity.
  - intros nc [<-|[<-|[<-|[<-|[]]]]]; reflexivity.
  - intros nc m H. destruct (unrecognised_eqb nc H) as (A & B & C & D).
    unfold getOptimalMaxResolution. rewrite A, B, C, D. reflexivity.
  - apply Nat.leb_le. destruct m; vm_compute; reflexivity.
  - apply Nat.leb_le. destruct m; vm_compute; reflexivity.
  - apply Nat.leb_le. destruct m; vm_compute; reflexivity.
Qed.

(** X6.  On mobile the network button shows the warning icon exactly when
    the resolution cap is 480p, whatever the network value; on desktop the
    button is not rendered. *)
Theorem indicator_matches_cap (s : Player.State) :
  (Player.network_indicator s = Some Player.WifiOff <->
   Player.isMobile (Player.hooks s) = true
   /\ Player.maxResolution (Player.render_config s) = "480p")
  /\ (Player.isMobile (Player.hooks s) = false ->
      Player.network_indicator s = None).
Proof.
  unfold Player.network_indicator, Player.render_config,
    getOptimalMaxResolution. simpl Player.maxResolution.
  destruct (Player.isMobile (Player.hooks s)).
  - split; [|discriminate].
    destruct (String.eqb _ "slow-2g") eqn:A.
    { rewrite orb_true_r. tauto. }
    destruct (String.eqb _ "2g") eqn:B.
    { simpl. tauto. }
    simpl. split; [discriminate|].
    intros [_ H].
    destruct (String.eqb _ "3g"); [discriminate|].
    destruct (String.eqb _ "4g"); discriminate.
  - split; [|reflexivity]. split; [discriminate|]. intros [H _].
    discriminate.
Qed.

End Selector.

(* ================================================================== *)
(** * The mounted component follows the browser; the unmounted one is
      silent *)
(* ================================================================== *)

Section Lifecycle.

Import Player.

Ltac eval_frame :=
  cbv -[filter is_reset Nat.eqb negb tid app orb isMobileDevice
        or_unknown String.eqb];
  repeat split; try reflexivity; try assumption; try discriminate.

Lemma commit_hooks (s : State) : hooks (commit s) = hooks s.
Proof. unfold commit. now destruct (playerListeners (effects s)). Qed.

Lemma commit_effects (s : State) :
  mounted (effects (commit s)) = mounted (effects s)
  /\ networkListener (effects (commit s)) = networkListener (effects s)
  /\ playerListeners (effects (commit s)) = playerListeners (effects s).
Proof. unfold commit. now destruct (playerListeners (effects s)) eqn:E. Qed.

(** What a step does to the registrations, the hooks the rendering reads
    and the browser data they mirror. *)
Lemma step_frame_lifecycle (s : State) (e : Event) :
  mounted (effects (step s e)) =
    (match e with Unmount => false | _ => true end && mounted (effects s))
  /\ networkListener (effects (step s e)) =
       (match e with
        | Unmount => negb (mounted (effects s))
        | _ => true
        end && networkListener (effects s))
  /\ has_connection (browser (step s e)) = has_connection (browser s)
  /\ userAgent (browser (step s e)) = userAgent (browser s).
Proof.
  destruct e as [w'|c'|el|o|  |  |d|d|ms|].
  - break_state s; destruct pls, mt, nl; eval_frame.
  - break_state s; destruct pls, mt, nl, con, moz; eval_frame.
  - break_state s; destruct pls, mt, nl; eval_frame.
  - rewrite step_dblclick.
    destruct (commit_effects
                (if mounted (effects s) && containerRef (refs s)
                 then match doubleClickTimeoutRef (refs s) with
                      | Some id => pair o id s
                      | None => arm s
                      end
                 else s)) as (-> & -> & _).
    rewrite commit_browser.
    destruct (mounted (effects s) && containerRef (refs s));
      [|repeat split; now rewrite ?andb_true_l].
    destruct (doubleClickTimeoutRef (refs s)) as [id|].
    + destruct (pair_frame o id s) as (_ & -> & -> & _).
      repeat split; now rewrite ?andb_true_l.
    + repeat split; now rewrite ?andb_true_l.
  - break_state s; destruct pr as [odc ovt];
      destruct pls, mt, nl, pc, ovt; eval_frame.
  - break_state s; destruct pls, mt, nl; eval_frame.
  - break_state s; destruct pr as [odc ovt];
      destruct pls, mt, nl, odc, d as [[|d]|]; eval_frame.
  - break_state s; destruct pr as [odc ovt];
      destruct pls, mt, nl, odc, d as [[|d]|]; eval_frame.
  - destruct (advance_detector ms s)
      as (_ & _ & _ & He & _ & _ & _ & Hb & _).
    cbv zeta in *. rewrite He, Hb.
    destruct (commit_effects s) as (-> & -> & _).
    repeat split; now rewrite ?andb_true_l.
  - break_state s; destruct pls, mt, nl, st; eval_frame.
Qed.

Lemma unmounted_flags (s : State) :
  unmounted s = true <->
  mounted (effects s) = false /\ networkListener (effects s) = false
  /\ playerListeners (effects s) = false.
Proof.
  unfold unmounted.
  destruct (mounted (effects s)), (networkListener (effects s)),
    (playerListeners (effects s)); simpl; intuition congruence.
Qed.

Lemma emitted_unmounted (s : State) (e : Event) :
  unmounted s = true -> emitted s e = [].
Proof.
  intros U. apply unmounted_flags in U as (M & _ & L).
  destruct e as [w'|c'|el|o|  |  |d|d|ms|]; simpl; try reflexivity;
    unfold notifies; now rewrite ?M, ?L.
Qed.

(** Once unmounted, a step calls nothing and sets no state. *)
Lemma step_silent (s : State) (e : Event) :
  unmounted s = true ->
  calls (step s e) = calls s
  /\ hooks (step s e) = hooks s
  /\ unmounted (step s e) = true.
Proof.
  intros U. split; [|split].
  - destruct (step_log s e) as (-> & _).
    rewrite (emitted_unmounted s e U). apply app_nil_r.
  - apply unmounted_flags in U as (M & N & L).
    destruct e as [w'|c'|el|o|  |  |d|d|ms|];
      try (break_state s; simpl in M, N, L; subst mt nl pls; reflexivity).
    now destruct (advance_detector ms s)
      as (_ & _ & _ & _ & _ & _ & _ & _ & _ & -> & _).
  - apply unmounted_flags. apply unmounted_flags in U as (M & N & L).
    destruct (step_frame_lifecycle s e) as (-> & -> & _).
    destruct (step_log s e) as (_ & _ & _ & _ & ->).
    rewrite M, N, L, !andb_false_r. auto.
Qed.

Lemma run_silent (tr : list Event) (s : State) :
  unmounted s = true ->
  calls (run tr s) = calls s /\ hooks (run tr s) = hooks s.
Proof.
  revert s. induction tr as [|e tr IH]; intros s U; [now split|].
  simpl. destruct (step_silent s e U) as (C & H & U').
  destruct (IH _ U') as [-> ->]. now split.
Qed.



(** While the component stays mounted, a step keeps it in step with the
    browser. *)
Lemma step_in_sync (s : State) (e : Event) :
  in_sync s -> mounted (effects (step s e)) = true -> in_sync (step s e).
Proof.
  intros (Hm & Hn & Hl) M.
  assert (M0 : mounted (effects s) = true).
  { destruct (step_frame_lifecycle s e) as (E & _). rewrite E in M.
    now apply andb_true_iff in M. }
  destruct e as [w'|c'|el|o|  |  |d|d|ms|].
  - break_state s; simpl in *; subst; destruct pls; eval_frame.
  - break_state s; simpl in *; subst.
    destruct pls, con as [c|], moz as [m|]; eval_frame.
  - break_state s; simpl in *; subst; destruct pls; eval_frame.
  - clear M. unfold in_sync. rewrite step_dblclick.
    rewrite commit_hooks, commit_browser.
    destruct (commit_effects
                (if mounted (effects s) && containerRef (refs s)
                 then match doubleClickTimeoutRef (refs s) with
                      | Some id => pair o id s
                      | None => arm s
                      end
                 else s)) as (_ & -> & _).
    destruct (mounted (effects s) && containerRef (refs s)); [|now split].
    destruct (doubleClickTimeoutRef (refs s)) as [id|]; [|now split].
    destruct (pair_frame o id s) as (_ & -> & -> & -> & _). now split.
  - break_state s; destruct pr as [odc ovt]; simpl in *; subst;
      destruct pls, pc, ovt; eval_frame.
  - break_state s; simpl in *; subst; destruct pls; eval_frame.
  - break_state s; destruct pr as [odc ovt]; simpl in *; subst;
      destruct pls, odc, d as [[|d]|]; eval_frame.
  - break_state s; destruct pr as [odc ovt]; simpl in *; subst;
      destruct pls, odc, d as [[|d]|]; eval_frame.
  - destruct (advance_detector ms s)
      as (_ & _ & _ & He & _ & _ & _ & Hb & _ & Hh & _).
    cbv zeta in *. unfold in_sync. rewrite Hh, Hb, He.
    destruct (commit_effects s) as (_ & -> & _). now split.
  - destruct (step_frame_lifecycle s Unmount) as (E & _).
    rewrite E in M. discriminate.
Qed.

Lemma mount_in_sync (p : Props) (b : Browser) : in_sync (mount p b).
Proof.
  destruct b as [ua w [c|] [m|] fs [|]]; repeat split.
Qed.

(** X8.  As long as the component is mounted, after any sequence of
    events its device class and network value are those of the browser as
    it is now (window width, connection report), so the rendered
    [max-resolution] and [preload] are the selector's answer for the
    current browser. *)
Theorem mounted_follows_browser (p : Props) (b : Browser)
    (tr : list Event) :
  let s := run tr (mount p b) in
  mounted (effects s) = true ->
  in_sync s
  /\ render_config s =
       {| maxResolution :=
            getOptimalMaxResolution (reading (browser s))
              (isMobileDevice (userAgent b) (innerWidth (browser s)));
          preload :=
            getPreloadStrategy (reading (browser s))
              (isMobileDevice (userAgent b) (innerWidth (browser s))) |}.
Proof.
  cbv zeta.
  assert (G : forall tr,
             mounted (effects (run tr (mount p b))) = true ->
             in_sync (run tr (mount p b))
             /\ userAgent (browser (run tr (mount p b))) = userAgent b).
  { clear tr. intros tr. induction tr as [|e tr IH] using rev_ind.
    - intros _. split; [apply mount_in_sync|].
      destruct b as [ua w [c|] [m|] fs [|]]; reflexivity.
    - rewrite run_app. simpl. intros M.
      assert (M0 : mounted (effects (run tr (mount p b))) = true).
      { destruct (step_frame_lifecycle (run tr (mount p b)) e) as (E & _).
        rewrite E in M. now apply andb_true_iff in M. }
      destruct (IH M0) as [S U]. split; [now apply step_in_sync|].
      destruct (step_frame_lifecycle (run tr (mount p b)) e)
        as (_ & _ & _ & ->). exact U. }
  intros M. destruct (G tr M) as [S U]. split; [exact S|].
  destruct S as (Hm & Hn & _). unfold render_config.
  now rewrite Hm, Hn, U.
Qed.

(** X8 after the window is narrowed and the connection degrades. *)
Lemma mounted_follows_browser_example :
  let p := {| onDurationChange := false; onViewTracked := false |} in
  let c := Some {| effectiveType := Some "4g"; conn_type := None |} in
  let c' := {| effectiveType := Some "2g"; conn_type := None |} in
  render_config
    (run [Resize 500%Z; ConnectionChange c']
       (mount p (narrow_desktop c None false true)))
  = {| maxResolution := "480p"; preload := "metadata" |}.
Proof.
  intros p c c'.
  destruct (mounted_follows_browser p (narrow_desktop c None false true)
              [Resize 500%Z; ConnectionChange c'] eq_refl) as [_ H].
  exact H.
Defined.

End Lifecycle.

(* ================================================================== *)
(** * Series of double clicks *)
(* ================================================================== *)

Section Tapping.

Import Player.

Lemma doubleTaps_app (tr tr' : list Event) (s : State) :
  doubleTaps (tr ++ tr') s = doubleTaps tr s + doubleTaps tr' (run tr s).
Proof.
  revert s. induction tr as [|e tr IH]; intros s; [reflexivity|].
  simpl. rewrite IH. lia.
Qed.

(** The calls of a run extend those of its start. *)
Lemma run_calls_extend (tr : list Event) (s : State) :
  exists l, calls (run tr s) = calls s ++ l.
Proof.
  revert s. induction tr as [|e tr IH]; intros s.
  - exists []. now rewrite app_nil_r.
  - simpl. destruct (IH (step s e)) as (l & ->).
    destruct (step_log s e) as (-> & _).
    exists (emitted s e ++ l). now rewrite app_assoc.
Qed.

(** A double click on an idle detector and a pause: the detector is idle
    again after 300 ms or more, armed after less. *)
Lemma tap_and_wait (s : State) (o : FsOutcome) (d : nat) :
  reachable s -> mounted (effects s) = true -> idle s = true ->
  let s2 := run [DblClick o; Advance d] s in
  reachable s2
  /\ mounted (effects s2) = true
  /\ doubleTaps [DblClick o; Advance d] s = 0
  /\ idle s2 = (300 <=? d)
  /\ browser s2 = browser s
  /\ calls s2 = calls s ++ [SetTimeout (nextTimer (clock s)) 300]
  /\ (d < 300 ->
      doubleClickTimeoutRef (refs s2) = Some (nextTimer (clock s))
      /\ containerRef (refs s2) = true).
Proof.
  intros R M I s2.
  destruct (first_click s o R M I)
    as (R1 & P1 & L1 & M1 & C1 & B1 & _ & N1 & _ & K0).
  cbv zeta in *. set (s1 := step s (DblClick o)) in *.
  destruct (advance_detector d s1) as (_ & R2 & _).
  destruct (step_advance_frame s1 d) as (M2 & C2 & L2 & B2 & _ & _).
  cbv zeta in *.
  change (run [DblClick o; Advance d] s) with (step s1 (Advance d)) in s2.
  fold s2 in R2, M2, C2, L2, B2.
  rewrite P1, N1 in R2. unfold is_due in R2. cbn [existsb due orb] in R2.
  rewrite orb_false_r in R2.
  assert (E : (now (clock s) + 300 <=? now (clock s) + d) = (300 <=? d)).
  { destruct (300 <=? d) eqn:D.
    - apply Nat.leb_le in D. apply Nat.leb_le. lia.
    - apply Nat.leb_gt in D. apply Nat.leb_gt. lia. }
  rewrite E in R2.
  split; [apply (reachable_run [DblClick o; Advance d] s R)|].
  split; [congruence|]. split.
  { change (doubleTaps [DblClick o; Advance d] s)
      with ((if completes_pair s then 1 else 0) + (0 + 0)).
    now rewrite K0. }
  split.
  { unfold idle. rewrite R2. destruct (300 <=? d); [reflexivity|].
    now rewrite R1. }
  split; [congruence|]. split; [congruence|].
  intros Hd. apply Nat.leb_gt in Hd. rewrite Hd in R2.
  split; congruence.
Qed.

(** Two double clicks less than 300 ms apart and a pause: one pair, and
    the detector is idle again. *)
Lemma pair_and_wait (s : State) (o1 o2 : FsOutcome) (d1 d2 : nat) :
  reachable s -> mounted (effects s) = true -> idle s = true ->
  d1 < 300 ->
  let tr := [DblClick o1; Advance d1; DblClick o2; Advance d2] in
  reachable (run tr s)
  /\ mounted (effects (run tr s)) = true
  /\ idle (run tr s) = true
  /\ doubleTaps tr s = 1
  /\ browser (run tr s) = browser s
  /\ calls (run tr s) =
       calls s
       ++ [SetTimeout (nextTimer (clock s)) 300;
           ClearTimeout (nextTimer (clock s))]
       ++ toggle_calls (fullscreenElement (browser s)) o2.
Proof.
  intros R M I Hd tr.
  destruct (tap_and_wait s o1 d1 R M I)
    as (R2 & M2 & K1 & _ & B2 & L2 & A2).
  destruct (A2 Hd) as [Rf C2]. cbv zeta in *.
  set (s2 := run [DblClick o1; Advance d1] s) in *.
  destruct (pairing_click s2 o2 _ M2 C2 Rf)
    as (I3 & _ & L3 & M3 & _ & B3 & _ & _ & _ & K2).
  cbv zeta in *. set (s3 := step s2 (DblClick o2)) in *.
  destruct (advance_detector d2 s3) as (_ & R4 & _).
  destruct (step_advance_frame s3 d2) as (M4 & _ & L4 & B4 & _ & _).
  cbv zeta in *.
  change (run tr s) with (step s3 (Advance d2)).
  split; [apply (reachable_run tr s R)|].
  split; [congruence|]. split.
  { unfold idle in I3 |- *. rewrite R4.
    destruct (existsb _ _); [reflexivity|exact I3]. }
  split.
  { change tr with ([DblClick o1; Advance d1]
                    ++ [DblClick o2; Advance d2]).
    rewrite doubleTaps_app. fold s2.
    change (doubleTaps [DblClick o2; Advance d2] s2)
      with ((if completes_pair s2 then 1 else 0) + (0 + 0)).
    rewrite K1, K2. reflexivity. }
  split; [congruence|].
  rewrite L4, L3, L2, B2, <- app_assoc. reflexivity.
Qed.

Lemma rapid_taps_bounded (n : nat) :
  forall (l : list (FsOutcome * nat)) (s : State),
    List.length l <= n ->
    reachable s -> mounted (effects s) = true -> idle s = true ->
    Forall (fun od => snd od < 300) l ->
    doubleTaps (taps l) s = Nat.div2 (List.length l)
    /\ idle (run (taps l) s) = Nat.even (List.length l).
Proof.
  induction n as [|n IH]; intros l s Hle R M I F.
  - destruct l; [|simpl in Hle; lia]. now split.
  - destruct l as [|[o1 d1] [|[o2 d2] r]].
    + now split.
    + inversion F as [|? ? Hd1 _]; subst. simpl in Hd1.
      destruct (tap_and_wait s o1 d1 R M I) as (_ & _ & K & Id & _).
      cbv zeta in *. split; [exact K|].
      change (taps [(o1, d1)]) with [DblClick o1; Advance d1].
      rewrite Id. apply Nat.leb_gt. exact Hd1.
    + inversion F as [|? ? Hd1 F1]; subst.
      inversion F1 as [|? ? _ F2]; subst. simpl in Hd1.
      destruct (pair_and_wait s o1 o2 d1 d2 R M I Hd1)
        as (R4 & M4 & I4 & K & _).
      cbv zeta in *.
      change (taps ((o1, d1) :: (o2, d2) :: r))
        with ([DblClick o1; Advance d1; DblClick o2; Advance d2]
              ++ taps r).
      rewrite doubleTaps_app, run_app, K.
      assert (Hr : List.length r <= n) by (simpl in Hle; lia).
      destruct (IH r _ Hr R4 M4 I4 F2) as [-> ->].
      now split.
Qed.

(** X9.  A series of double clicks, each less than 300 ms after the one
    before, pairs them two by two: n clicks complete n/2 pairs, and the
    detector ends idle exactly when n is even. *)
Theorem rapid_taps_pair_up (s : State) (l : list (FsOutcome * nat)) :
  reachable s -> mounted (effects s) = true -> idle s = true ->
  Forall (fun od => snd od < 300) l ->
  doubleTaps (taps l) s = Nat.div2 (List.length l)
  /\ idle (run (taps l) s) = Nat.even (List.length l).
Proof.
  apply (rapid_taps_bounded (List.length l)). apply le_n.
Qed.

(** X9 on five clicks 100 ms apart: two pairs, and the fifth click is
    pending. *)
Lemma rapid_taps_pair_up_five :
  let p := {| onDurationChange := false; onViewTracked := false |} in
  let s := mount p (narrow_desktop None None false true) in
  let l := [(Resolves, 100); (Resolves, 100); (Resolves, 100);
            (Resolves, 100); (Resolves, 100)] in
  doubleTaps (taps l) s = 2 /\ idle (run (taps l) s) = false.
Proof.
  intros p s l.
  assert (R : reachable s)
    by (exists p, (narrow_desktop None None false true), []; reflexivity).
  apply (rapid_taps_pair_up s l R eq_refl eq_refl).
  repeat constructor; simpl; lia.
Defined.

(** X10.  Double clicks each followed by 300 ms or more never pair: no
    signal, no fullscreen call, and the detector is idle at the end. *)
Theorem slow_taps_never_pair (s : State) (l : list (FsOutcome * nat)) :
  reachable s -> mounted (effects s) = true -> idle s = true ->
  Forall (fun od => 300 <= snd od) l ->
  doubleTaps (taps l) s = 0
  /\ idle (run (taps l) s) = true
  /\ count is_fullscreen_call (calls (run (taps l) s))
     = count is_fullscreen_call (calls s).
Proof.
  intros R M I F.
  assert (G : doubleTaps (taps l) s = 0 /\ idle (run (taps l) s) = true).
  { revert s R M I. induction F as [|[o d] r Hd F IH]; intros s R M I.
    - now split.
    - simpl in Hd.
      destruct (tap_and_wait s o d R M I) as (R2 & M2 & K & Id & _).
      cbv zeta in *.
      change (taps ((o, d) :: r)) with ([DblClick o; Advance d] ++ taps r).
      rewrite doubleTaps_app, run_app, K.
      assert (I2 : idle (run [DblClick o; Advance d] s) = true)
        by (rewrite Id; now apply Nat.leb_le).
      destruct (IH _ R2 M2 I2) as [-> ->]. now split. }
  destruct G as [K I']. repeat split; try assumption.
  destruct (toggles_per_pair (taps l) s) as [Hle _]. rewrite K in Hle.
  destruct (run_calls_extend (taps l) s) as (x & E).
  rewrite E, count_app in *. lia.
Qed.

(** X10 on three clicks one second apart. *)
Lemma slow_taps_never_pair_three :
  let p := {| onDurationChange := false; onViewTracked := false |} in
  let s := mount p (narrow_desktop None None false true) in
  let l := [(Resolves, 1000); (Resolves, 1000); (Resolves, 1000)] in
  doubleTaps (taps l) s = 0 /\ idle (run (taps l) s) = true.
Proof.
  intros p s l.
  assert (R : reachable s)
    by (exists p, (narrow_desktop None None false true), []; reflexivity).
  assert (F : Forall (fun od => 300 <= snd od) l)
    by (repeat constructor; simpl; lia).
  destruct (slow_taps_never_pair s l R eq_refl eq_refl F) as (A & B & _).
  now split.
Defined.

Lemma step_fullscreenchange (s : State) (el : bool) :
  mounted (effects s) = true ->
  let s' := step s (FullscreenChange el) in
  mounted (effects s') = true
  /\ idle s' = idle s
  /\ fullscreenElement (browser s') = el
  /\ isFullscreen (hooks s') = el
  /\ calls s' = calls s.
Proof.
  intros M s'. subst s'.
  destruct (step_frame_lifecycle s (FullscreenChange el)) as (-> & _).
  destruct (step_other_detector s (FullscreenChange el) I) as (Hr & _).
  destruct (step_log s (FullscreenChange el)) as (-> & _).
  unfold idle. rewrite Hr, M, app_nil_r.
  repeat split; break_state s; simpl in M; subst mt; destruct pls;
    reflexivity.
Qed.

(** X11.  Two completed pairs in a row.  When the browser grants the first
    request and reports fullscreen, the second pair leaves fullscreen:
    the fullscreen calls are [requestFullscreen] then [exitFullscreen].
    When it rejects the first request, nothing is retried by itself, one
    warning is logged, and the second pair requests fullscreen again. *)
Theorem enter_then_exit (s : State) (o1 o3 : FsOutcome)
    (d1 d2 d3 d4 : nat) :
  reachable s -> mounted (effects s) = true -> idle s = true ->
  fullscreenElement (browser s) = false ->
  d1 < 300 -> d3 < 300 ->
  let first (o : FsOutcome) :=
    [DblClick o1; Advance d1; DblClick o; Advance d2] in
  let second := [DblClick o3; Advance d3; DblClick Resolves; Advance d4] in
  filter is_fullscreen_call
    (calls (run (first Resolves ++ [FullscreenChange true] ++ second) s))
  = filter is_fullscreen_call (calls s)
    ++ [RequestFullscreen; ExitFullscreen]
  /\ (forall err,
        filter (fun c => negb (is_timer_call c))
          (calls (run (first (Rejects err) ++ second) s))
        = filter (fun c => negb (is_timer_call c)) (calls s)
          ++ [RequestFullscreen;
              ConsoleWarn "Fullscreen request failed:" err;
              RequestFullscreen]).
Proof.
  intros R M I F Hd1 Hd3 first second. split.
  - destruct (pair_and_wait s o1 Resolves d1 d2 R M I Hd1)
      as (R1 & M1 & I1 & _ & B1 & L1).
    cbv zeta in *. rewrite !run_app. fold (first Resolves) in *.
    set (s1 := run (first Resolves) s) in *.
    destruct (step_fullscreenchange s1 true M1) as (M2 & I2 & F2 & _ & L2).
    cbv zeta in *.
    change (run [FullscreenChange true] s1)
      with (step s1 (FullscreenChange true)).
    set (s2 := step s1 (FullscreenChange true)) in *.
    assert (R2 : reachable s2).
    { change (reachable (run [FullscreenChange true] s1)).
      now apply reachable_run. }
    rewrite I1 in I2.
    destruct (pair_and_wait s2 o3 Resolves d3 d4 R2 M2 I2 Hd3)
      as (_ & _ & _ & _ & _ & L3).
    cbv zeta in *. fold second in L3.
    rewrite L3, L2, L1, F2, F, !filter_app.
    cbn [toggle_calls app filter is_fullscreen_call].
    rewrite <- app_assoc. reflexivity.
  - intros err.
    destruct (pair_and_wait s o1 (Rejects err) d1 d2 R M I Hd1)
      as (R1 & M1 & I1 & _ & B1 & L1).
    cbv zeta in *. rewrite !run_app. fold (first (Rejects err)) in *.
    set (s1 := run (first (Rejects err)) s) in *.
    destruct (pair_and_wait s1 o3 Resolves d3 d4 R1 M1 I1 Hd3)
      as (_ & _ & _ & _ & _ & L3).
    cbv zeta in *. fold second in L3.
    rewrite L3, L1, B1, F, !filter_app.
    cbn [toggle_calls app filter negb is_timer_call].
    rewrite <- !app_assoc. reflexivity.
Qed.

(** X11 on a freshly mounted player. *)
Lemma enter_then_exit_mounted :
  let p := {| onDurationChange := false; onViewTracked := false |} in
  let s := mount p (narrow_desktop None None false true) in
  filter is_fullscreen_call
    (calls (run ([DblClick Resolves; Advance 100; DblClick Resolves;
                  Advance 500]
                 ++ [FullscreenChange true]
                 ++ [DblClick Resolves; Advance 100; DblClick Resolves;
                     Advance 500]) s))
  = [RequestFullscreen; ExitFullscreen].
Proof.
  intros p s.
  assert (R : reachable s)
    by (exists p, (narrow_desktop None None false true), []; reflexivity).
  assert (L : 100 < 300) by lia.
  exact (proj1 (enter_then_exit s Resolves Resolves 100 500 100 500
                  R eq_refl eq_refl eq_refl L L)).
Defined.

End Tapping.

(* ================================================================== *)
(** * The player inside the modal *)
(* ================================================================== *)

Section InModal.

Import Player.







(** X14.  A player that is not given [onViewTracked] never records a view:
    [hasTrackedView] stays false and no notification is made, however
    often it plays.  The modal mounts the player this way. *)
Theorem no_callback_no_view (p : Props) (b : Browser) (tr : list Event) :
  onViewTracked p = false ->
  views (run tr (mount p b)) = 0
  /\ hasTrackedView (hooks (run tr (mount p b))) = false.
Proof.
  intros Hp.
  assert (H : hasTrackedView (hooks (run tr (mount p b))) = false).
  { induction tr as [|e tr IH] using rev_ind.
    - destruct b as [ua w [c|] [m|] fs [|]]; reflexivity.
    - rewrite run_app. simpl.
      destruct (step_log (run tr (mount p b)) e) as (_ & _ & -> & _).
      rewrite IH. unfold notifies. rewrite run_props.
      destruct (mount_view p b) as (_ & _ & _ & _ & ->). rewrite Hp.
      destruct e; simpl; rewrite ?andb_false_r; reflexivity. }
  split; [|exact H].
  destruct (mount_view p b) as (V & _).
  destruct (run_view_ok tr _ V) as [-> _]. now rewrite H.
Qed.

(** X14 on the player of the modal, played three times. *)
Lemma no_callback_no_view_modal :
  views (run [Play; Pause; Play; Pause; Play]
           (mount App.player_props (narrow_desktop None None false true)))
  = 0.
Proof.
  exact (proj1 (no_callback_no_view App.player_props
                  (narrow_desktop None None false true)
                  [Play; Pause; Play; Pause; Play] eq_refl)).
Defined.

End InModal.

(* ================================================================== *)
(** * Clicks on the modal *)
(* ================================================================== *)

Section Clicks.


End Clicks.

(* ================================================================== *)
(** * The user-agent test, the network value and the playing flag *)
(* ================================================================== *)

Section Flags.

Import Player.

Lemma lower_idempotent (c : ascii) : Str.lower (Str.lower c) = Str.lower c.
Proof.
  destruct c as [[|] [|] [|] [|] [|] [|] [|] [|]]; reflexivity.
Qed.

Lemma strip_ci_lower (p s : string) :
  match Str.strip_ci p s, Str.strip_ci p (Str.lower_string s) with
  | Some _, Some _ | None, None => True
  | _, _ => False
  end.
Proof.
  revert s. induction p as [|a p IH]; intros s; simpl; [exact I|].
  destruct s as [|b s]; simpl; [exact I|].
  rewrite lower_idempotent.
  destruct (Ascii.eqb (Str.lower a) (Str.lower b)); [apply IH|exact I].
Qed.

Lemma includes_ci_lower (s p : string) :
  Str.includes_ci (Str.lower_string s) p = Str.includes_ci s p.
Proof.
  induction s as [|c s IH].
  - reflexivity.
  - pose proof (strip_ci_lower p (String c s)) as H.
    cbn [Str.includes_ci Str.lower_string] in *.
    destruct (Str.strip_ci p (String c s)),
      (Str.strip_ci p (String (Str.lower c) (Str.lower_string s)));
      try contradiction; [reflexivity|exact IH].
Qed.

Lemma mobile_ua_test_lower (ua : string) :
  mobile_ua_test (Str.lower_string ua) = mobile_ua_test ua.
Proof.
  unfold mobile_ua_test, mobile_patterns. cbn [existsb].
  now rewrite !includes_ci_lower.
Qed.

(** X16.  Two user agents that differ only in the case of ASCII letters
    are classified alike, by the modal and, at any window width, by the
    player. *)
Theorem device_test_ignores_case (ua ua' : string) :
  Str.lower_string ua = Str.lower_string ua' ->
  Modal.isMobile ua = Modal.isMobile ua'
  /\ forall w, isMobileDevice ua w = isMobileDevice ua' w.
Proof.
  intros H.
  assert (E : mobile_ua_test ua = mobile_ua_test ua')
    by now rewrite <- (mobile_ua_test_lower ua),
         <- (mobile_ua_test_lower ua'), H.
  split; [exact E|]. intros w. unfold isMobileDevice. now rewrite E.
Qed.

(** X16 on two spellings of an iPhone user agent. *)
Lemma device_test_ignores_case_iphone :
  Modal.isMobile "Mozilla/5.0 (IPHONE; CPU OS 17_0)" =
  Modal.isMobile "mozilla/5.0 (iphone; cpu os 17_0)".
Proof.
  apply (device_test_ignores_case "Mozilla/5.0 (IPHONE; CPU OS 17_0)"
           "mozilla/5.0 (iphone; cpu os 17_0)").
  reflexivity.
Defined.

Lemma or_unknown_nonempty (v : option string) :
  Str.is_empty (or_unknown v) = false.
Proof.
  unfold or_unknown. destruct v as [x|]; [|reflexivity].
  destruct (Str.is_empty x) eqn:E; [reflexivity|exact E].
Qed.

(** A step leaves the network value alone or stores a value read through
    [|| 'unknown']; it sets [isPlaying] on [play] and [pause] only. *)
Lemma step_flags (s : State) (e : Event) :
  (networkConnection (hooks (step s e)) = networkConnection (hooks s)
   \/ exists v, networkConnection (hooks (step s e)) = or_unknown v)
  /\ isPlaying (hooks (step s e)) =
       match e with
       | Play => playerListeners (effects s) || isPlaying (hooks s)
       | Pause => negb (playerListeners (effects s)) && isPlaying (hooks s)
       | _ => isPlaying (hooks s)
       end
  /\ isMobile (hooks (step s e)) =
       match e with
       | Resize w =>
           if mounted (effects s)
           then isMobileDevice (userAgent (browser s)) w
           else isMobile (hooks s)
       | _ => isMobile (hooks s)
       end.
Proof.
  destruct e as [w'|c'|el|o|  |  |d|d|ms|].
  - break_state s; destruct pls, mt; (split; [now left|now split]).
  - break_state s; destruct pls, nl, con as [c|], moz as [m|];
      (split; [|now split]);
      first [ now left | right; eexists; reflexivity ].
  - break_state s; destruct pls, mt; (split; [now left|now split]).
  - rewrite step_dblclick, commit_hooks.
    destruct (mounted (effects s) && containerRef (refs s));
      [|(split; [now left|now split])].
    destruct (doubleClickTimeoutRef (refs s)) as [id|].
    + destruct (pair_frame o id s) as (_ & _ & _ & -> & _).
      (split; [now left|now split]).
    + (split; [now left|now split]).
  - break_state s; destruct pr as [odc ovt]; destruct pls, pc, ovt, ip;
      (split; [now left|now split]).
  - break_state s; destruct pls, ip; (split; [now left|now split]).
  - break_state s; destruct pr as [odc ovt];
      destruct pls, odc, d as [[|d]|]; (split; [now left|now split]).
  - break_state s; destruct pr as [odc ovt];
      destruct pls, odc, d as [[|d]|]; (split; [now left|now split]).
  - destruct (advance_detector ms s)
      as (_ & _ & _ & _ & _ & _ & _ & _ & _ & -> & _).
    (split; [now left|now split]).
  - break_state s; destruct pls, mt, st; (split; [now left|now split]).
Qed.

(** X17.  The network value the component holds is never the empty
    string, in any state a session can reach: a falsy report is replaced
    by 'unknown'. *)
Theorem network_value_never_empty (p : Props) (b : Browser)
    (tr : list Event) :
  Str.is_empty (networkConnection (hooks (run tr (mount p b)))) = false.
Proof.
  induction tr as [|e tr IH] using rev_ind.
  - cbn [run fold_left]. rewrite mount_networkConnection.
    destruct (connection b), (mozConnection b);
      try apply or_unknown_nonempty; reflexivity.
  - rewrite run_app. simpl.
    destruct (step_flags (run tr (mount p b)) e) as ([->|(v & ->)] & _).
    + exact IH.
    + apply or_unknown_nonempty.
Qed.

Lemma isPlaying_run (tr : list Event) (s : State) :
  mounted (effects s) = true ->
  playerListeners (effects s) = true ->
  isPlaying (hooks (run tr s)) = last_playing tr (isPlaying (hooks s)).
Proof.
  revert s. induction tr as [|e tr IH]; intros s M L; [reflexivity|].
  simpl run.
  destruct (step_frame_lifecycle s e) as (M' & N' & _).
  destruct (step_log s e) as (_ & _ & _ & _ & L').
  destruct (step_flags s e) as (_ & P & _).
  rewrite M in M', N', L'. rewrite L in L', P.
  destruct e as [w'|c'|el|o|  |  |d|d|ms|];
    try (rewrite IH, P by (rewrite ?M', ?L'; reflexivity); reflexivity).
  simpl last_playing.
  assert (U : unmounted (step s Unmount) = true).
  { apply unmounted_flags. rewrite M', N', L'. simpl. auto. }
  destruct (run_silent tr _ U) as [_ ->]. now rewrite P.
Qed.

(** X18.  Until the player is unmounted, [isPlaying] says whether the
    player element last reported [play] rather than [pause] (false before
    either), so on mobile the double-tap hint is shown exactly while the
    video is not playing. *)
Theorem playing_flag_follows_player (p : Props) (b : Browser)
    (tr : list Event) :
  let s := run tr (mount p b) in
  isPlaying (hooks s) = last_playing tr false
  /\ help_text_shown s = isMobile (hooks s) && negb (last_playing tr false).
Proof.
  intros s.
  assert (E : isPlaying (hooks s) = last_playing tr false).
  { subst s. rewrite isPlaying_run.
    - f_equal. destruct b as [ua w [c|] [m|] fs [|]]; reflexivity.
    - destruct b as [ua w [c|] [m|] fs [|]]; reflexivity.
    - destruct b as [ua w [c|] [m|] fs [|]]; reflexivity. }
  split; [exact E|]. unfold help_text_shown. now rewrite E.
Qed.

End Flags.
